(** * Qwiic SerLCD MicroPython driver: command encoding and display state

    A shallow embedding of [qwiic_serlcd_u.py] (class [QwiicSerlcdU]) and the
    properties of its command encoding, display-control flags, scrolling
    window and result propagation.

    Python integers are [Z]; a [str] is a list of characters; the handle
    ([self]) is a record threaded through a state-and-exception monad
    together with the trace of calls made to the external collaborators
    (the I2C bus object and [utime]). *)

From Stdlib Require Import Ascii String ZArith List Lia Bool.
Import ListNotations.
Open Scope Z_scope.

(** ** Module constants *)

Definition MAX_ROWS : Z := 4.
Definition MAX_COLUMNS : Z := 20.

Definition SPECIAL_COMMAND : Z := 254.
Definition SETTING_COMMAND : Z := 0x7C.

Definition CLEAR_COMMAND : Z := 0x2D.
Definition CONTRAST_COMMAND : Z := 0x18.
Definition ADDRESS_COMMAND : Z := 0x19.
Definition SET_RGB_COMMAND : Z := 0x2B.
Definition ENABLE_SYSTEM_MESSAGE_DISPLAY : Z := 0x2E.
Definition DISABLE_SYSTEM_MESSAGE_DISPLAY : Z := 0x2F.
Definition ENABLE_SPLASH_DISPLAY : Z := 0x30.
Definition DISABLE_SPLASH_DISPLAY : Z := 0x31.
Definition SAVE_CURRENT_DISPLAY_AS_SPLASH : Z := 0x0A.

Definition LCD_RETURNHOME : Z := 0x02.
Definition LCD_ENTRYMODESET : Z := 0x04.
Definition LCD_DISPLAYCONTROL : Z := 0x08.
Definition LCD_CURSORSHIFT : Z := 0x10.
Definition LCD_SETDDRAMADDR : Z := 0x80.

Definition LCD_ENTRYRIGHT : Z := 0x00.
Definition LCD_ENTRYLEFT : Z := 0x02.
Definition LCD_ENTRYSHIFTINCREMENT : Z := 0x01.
Definition LCD_ENTRYSHIFTDECREMENT : Z := 0x00.

Definition LCD_DISPLAYON : Z := 0x04.
Definition LCD_DISPLAYOFF : Z := 0x00.
Definition LCD_CURSORON : Z := 0x02.
Definition LCD_CURSOROFF : Z := 0x00.
Definition LCD_BLINKON : Z := 0x01.
Definition LCD_BLINKOFF : Z := 0x00.

(** ** Python data *)

(** The values the driver's methods hand back: [None], a [bool] (from
    [begin]) or whatever integer the bus object's [writeto] returned. *)
Inductive value : Type :=
  | VNone
  | VBool (b : bool)
  | VInt (n : Z).

(** Python's [bool(v)]. *)
Definition truth (v : value) : bool :=
  match v with
  | VNone => false
  | VBool b => b
  | VInt n => negb (n =? 0)
  end.

Definition str : Type := list ascii.

Definition len {A : Type} (s : list A) : Z := Z.of_nat (List.length s).

(** One bound of a slice, as Python normalises it for a sequence of
    length [n]: a negative bound counts from the end, and the result is
    clipped to [0, n]. *)
Definition slice_bound (n i : Z) : Z :=
  if i <? 0 then Z.max (i + n) 0 else Z.min i n.

(** [s[lo:hi]]. *)
Definition py_slice {A : Type} (s : list A) (lo hi : Z) : list A :=
  let n := len s in
  let a := slice_bound n lo in
  let b := slice_bound n hi in
  firstn (Z.to_nat (b - a)) (skipn (Z.to_nat a) s).

(** [range(a, b)]. *)
Definition py_range (a b : Z) : list Z :=
  map (fun k => a + Z.of_nat k) (seq 0 (Z.to_nat (b - a))).

(** ** External collaborators *)

(** What is handed to [i2c.writeto]: [bytearray(block)] for a list of
    integers, or the text itself.  [Bytearray block] stands for the object
    [bytearray(block)]: when every element of [block] is within 0..255 its
    bytes are these elements; for an element outside that range the outcome
    depends on the runtime (CPython raises [ValueError], MicroPython keeps
    the low eight bits), so a statement about the bytes of a command bounds
    the elements first. *)
Inductive payload : Type :=
  | Bytearray (block : list Z)
  | Text (text : str).

(** Calls made to the outside world, oldest first.  Sleeps are recorded in
    milliseconds ([utime.sleep(0.01)] is [Sleep 10]). *)
Inductive event : Type :=
  | Write (address : Z) (buf : payload)
  | Sleep (ms : Z)
  | Ticks.

Definition trace : Type := list event.

(** The exceptions that reach the driver: MicroPython's [writeto] raises
    [OSError] with an error number when the device does not answer, and
    indexing a list outside its bounds raises [IndexError]. *)
Inductive exn : Type :=
  | OSError (errno : Z)
  | IndexError.

(** A call either returns or raises. *)
Inductive outcome (A : Type) : Type :=
  | Returns (a : A)
  | Raises (e : exn).
Arguments Returns {A} a.
Arguments Raises {A} e.

(** [l[i]] for a list of integers: a negative index counts from the end,
    an index outside [-len(l), len(l)) raises [IndexError]. *)
Definition py_index (l : list Z) (i : Z) : outcome Z :=
  let n := len l in
  if (i <? - n) || (n <=? i) then Raises IndexError
  else
    match nth_error l (Z.to_nat (if i <? 0 then i + n else i)) with
    | Some x => Returns x
    | None => Raises IndexError
    end.

(** The bus object and the clock, as functions of the calls made so far. *)
Record Env : Type := {
  writeto : trace -> Z -> payload -> outcome value;
  ticks_ms : trace -> Z;
  ticks_diff : Z -> Z -> Z
}.

(** The writes recorded in a trace. *)
Fixpoint writes (tr : trace) : list (Z * payload) :=
  match tr with
  | [] => []
  | Write a p :: tr' => (a, p) :: writes tr'
  | _ :: tr' => writes tr'
  end.

(** ** The handle *)

Record QwiicSerlcdU : Type := {
  address : Z;
  lcd_columns : Z;
  lcd_rows : Z;
  last_refreshed : Z;
  index : Z;
  _displayControl : Z
}.

Definition _displayMode : Z := Z.lor LCD_ENTRYLEFT LCD_ENTRYSHIFTDECREMENT.
Definition _defaultValue : Z := 20.

Definition with_address (a : Z) (s : QwiicSerlcdU) : QwiicSerlcdU :=
  {| address := a; lcd_columns := lcd_columns s; lcd_rows := lcd_rows s;
     last_refreshed := last_refreshed s; index := index s;
     _displayControl := _displayControl s |}.

Definition with_last_refreshed (t : Z) (s : QwiicSerlcdU) : QwiicSerlcdU :=
  {| address := address s; lcd_columns := lcd_columns s; lcd_rows := lcd_rows s;
     last_refreshed := t; index := index s;
     _displayControl := _displayControl s |}.

Definition with_index (i : Z) (s : QwiicSerlcdU) : QwiicSerlcdU :=
  {| address := address s; lcd_columns := lcd_columns s; lcd_rows := lcd_rows s;
     last_refreshed := last_refreshed s; index := i;
     _displayControl := _displayControl s |}.

Definition with_displayControl (d : Z) (s : QwiicSerlcdU) : QwiicSerlcdU :=
  {| address := address s; lcd_columns := lcd_columns s; lcd_rows := lcd_rows s;
     last_refreshed := last_refreshed s; index := index s;
     _displayControl := d |}.

(** ** The method monad: handle and trace threaded, exceptions propagated *)

Definition M (A : Type) : Type :=
  QwiicSerlcdU -> trace -> outcome A * QwiicSerlcdU * trace.

Definition ret {A : Type} (a : A) : M A :=
  fun s tr => (Returns a, s, tr).

Definition bind {A B : Type} (m : M A) (k : A -> M B) : M B :=
  fun s tr =>
    match m s tr with
    | (Returns a, s', tr') => k a s' tr'
    | (Raises e, s', tr') => (Raises e, s', tr')
    end.

Declare Scope py_scope.
Delimit Scope py_scope with py.
Notation "x <- m ;; k" := (bind m (fun x => k))
  (at level 61, m at next level, right associativity) : py_scope.
Notation "m ;; k" := (bind m (fun _ => k))
  (at level 61, right associativity) : py_scope.
Open Scope py_scope.

(** An expression that returns or raises without touching the handle. *)
Definition lift {A : Type} (o : outcome A) : M A := fun s tr => (o, s, tr).

Definition self : M QwiicSerlcdU := fun s tr => (Returns s, s, tr).
Definition assign (f : QwiicSerlcdU -> QwiicSerlcdU) : M unit :=
  fun s tr => (Returns tt, f s, tr).

Definition outcome_of {A : Type} (r : outcome A * QwiicSerlcdU * trace) : outcome A :=
  fst (fst r).
Definition handle_of {A : Type} (r : outcome A * QwiicSerlcdU * trace) : QwiicSerlcdU :=
  snd (fst r).
Definition trace_of {A : Type} (r : outcome A * QwiicSerlcdU * trace) : trace :=
  snd r.

Section Driver.

Variable env : Env.

(** [self.i2c.writeto(addr, buf)]: the call is recorded, then it returns
    or raises as the bus decides. *)
Definition i2c_writeto (addr : Z) (buf : payload) : M value :=
  fun s tr => (writeto env tr addr buf, s, tr ++ [Write addr buf]).

(** [utime.sleep]. *)
Definition sleep (ms : Z) : M unit :=
  fun s tr => (Returns tt, s, tr ++ [Sleep ms]).

(** [utime.ticks_ms()]. *)
Definition utime_ticks_ms : M Z :=
  fun s tr => (Returns (ticks_ms env tr), s, tr ++ [Ticks]).

(** [QwiicSerlcdU(i2c, i2c_address, lcd_columns, lcd_rows)]; the class
    attribute [_displayControl] is what the instance reads until a toggle
    assigns it. *)
Definition init (i2c_address columns rows : Z) (tr : trace) : QwiicSerlcdU * trace :=
  ({| address := i2c_address; lcd_columns := columns; lcd_rows := rows;
      last_refreshed := ticks_ms env tr; index := 0;
      _displayControl := Z.lor (Z.lor LCD_DISPLAYON LCD_CURSOROFF) LCD_BLINKOFF |},
   tr ++ [Ticks]).

Definition send_commands (block : list Z) : M value :=
  s <- self ;;
  result <- i2c_writeto (address s) (Bytearray block) ;;
  sleep 10 ;;
  ret result.

Definition send_text (text : str) : M value :=
  s <- self ;;
  result <- i2c_writeto (address s) (Text text) ;;
  sleep 10 ;;
  ret result.

Definition clear_display : M value :=
  send_commands [SETTING_COMMAND; CLEAR_COMMAND].

Definition begin : M value :=
  sleep 1000 ;;
  s <- self ;;
  result0 <- send_commands [SPECIAL_COMMAND; Z.lor LCD_DISPLAYCONTROL (_displayControl s)] ;;
  result1 <- send_commands [SPECIAL_COMMAND; Z.lor LCD_ENTRYMODESET _displayMode] ;;
  result2 <- clear_display ;;
  ret (VBool (truth result0 && truth result1 && truth result2)).

Definition display (message : str) : M value :=
  send_commands [SETTING_COMMAND; CLEAR_COMMAND] ;;
  s <- self ;;
  send_text (py_slice message 0 (lcd_columns s * lcd_rows s)) ;;
  ret VNone.

Definition append_display (message : str) : M value :=
  send_text message.

(** The padding loop of [display_lines]:
    [for i in range(len(line_1), self.lcd_columns): line_1 += " "]. *)
Definition pad_line (line_1 : str) (columns : Z) : str :=
  fold_left (fun l _ => l ++ [" "%char]) (py_range (len line_1) columns) line_1.

Definition display_lines (first_line second_line : str) : M value :=
  s <- self ;;
  let line_1 := py_slice first_line 0 (lcd_columns s) in
  let line_2 := py_slice second_line 0 (lcd_columns s) in
  let line_1 := pad_line line_1 (lcd_columns s) in
  display (line_1 ++ line_2).

(** The local [visible_message] of [display_scrolling]. *)
Definition visible_message (s : QwiicSerlcdU) (message : str) : str :=
  let visible := py_slice message (index s) (lcd_columns s * lcd_rows s + index s) in
  if lcd_columns s * lcd_rows s + index s >? len message
  then visible ++ py_slice message 0 (lcd_columns s * lcd_rows s + index s - len message)
  else visible.

Definition display_scrolling (message : str) (duration : Z) : M value :=
  now <- utime_ticks_ms ;;
  s <- self ;;
  if ticks_diff env now (last_refreshed s) >? duration then
    display (visible_message s message) ;;
    t <- utime_ticks_ms ;;
    assign (with_last_refreshed t) ;;
    s1 <- self ;;
    assign (with_index (index s1 + 1)) ;;
    s2 <- self ;;
    (if index s2 >? len message then assign (with_index 0) else ret tt) ;;
    ret VNone
  else ret VNone.

Definition set_contrast (contrast : Z) : M value :=
  send_commands [SETTING_COMMAND; CONTRAST_COMMAND; contrast].

Definition set_rgb_backlight (r g b : Z) : M value :=
  send_commands [SETTING_COMMAND; SET_RGB_COMMAND; r; g; b].

Definition set_cursor (col row : Z) : M value :=
  let row_offsets := [0x00; 0x40; 0x14; 0x54] in
  let row := Z.max 0 row in
  let row := Z.min row (MAX_ROWS - 1) in
  offset <- lift (py_index row_offsets row) ;;
  send_commands [SPECIAL_COMMAND; Z.lor LCD_SETDDRAMADDR (col + offset)].

Definition enable_cursor : M value :=
  s <- self ;;
  assign (with_displayControl (Z.lor (_displayControl s) LCD_CURSORON)) ;;
  s <- self ;;
  send_commands [SPECIAL_COMMAND; Z.lor LCD_DISPLAYCONTROL (_displayControl s)].

Definition disable_cursor : M value :=
  s <- self ;;
  assign (with_displayControl (Z.land (_displayControl s) (Z.lnot LCD_CURSORON))) ;;
  s <- self ;;
  send_commands [SPECIAL_COMMAND; Z.lor LCD_DISPLAYCONTROL (_displayControl s)].

Definition enable_cursor_blink : M value :=
  s <- self ;;
  assign (with_displayControl (Z.lor (_displayControl s) LCD_BLINKON)) ;;
  s <- self ;;
  send_commands [SPECIAL_COMMAND; Z.lor LCD_DISPLAYCONTROL (_displayControl s)].

Definition disable_cursor_blink : M value :=
  s <- self ;;
  assign (with_displayControl (Z.land (_displayControl s) (Z.lnot LCD_BLINKON))) ;;
  s <- self ;;
  send_commands [SPECIAL_COMMAND; Z.lor LCD_DISPLAYCONTROL (_displayControl s)].

Definition enable_display : M value :=
  s <- self ;;
  assign (with_displayControl (Z.lor (_displayControl s) LCD_DISPLAYON)) ;;
  s <- self ;;
  send_commands [SPECIAL_COMMAND; Z.lor LCD_DISPLAYCONTROL (_displayControl s)].

Definition disable_display : M value :=
  s <- self ;;
  assign (with_displayControl (Z.land (_displayControl s) (Z.lnot LCD_DISPLAYON))) ;;
  s <- self ;;
  send_commands [SPECIAL_COMMAND; Z.lor LCD_DISPLAYCONTROL (_displayControl s)].

Definition enable_system_messages : M value :=
  send_commands [SETTING_COMMAND; ENABLE_SYSTEM_MESSAGE_DISPLAY].

Definition disable_system_messages : M value :=
  send_commands [SETTING_COMMAND; DISABLE_SYSTEM_MESSAGE_DISPLAY].

Definition enable_splash : M value :=
  send_commands [SETTING_COMMAND; ENABLE_SPLASH_DISPLAY].

Definition disable_splash : M value :=
  send_commands [SETTING_COMMAND; DISABLE_SPLASH_DISPLAY].

Definition save_splash : M value :=
  send_commands [SETTING_COMMAND; SAVE_CURRENT_DISPLAY_AS_SPLASH].

Definition default_settings : M value :=
  disable_display ;;
  disable_system_messages ;;
  set_contrast _defaultValue ;;
  set_rgb_backlight _defaultValue _defaultValue _defaultValue ;;
  enable_splash ;;
  clear_display ;;
  enable_system_messages ;;
  enable_display ;;
  ret VNone.

Definition set_address (new_address : Z) : M value :=
  result <- send_commands [SETTING_COMMAND; ADDRESS_COMMAND; new_address] ;;
  sleep 50 ;;
  assign (with_address new_address) ;;
  ret result.

End Driver.

(** ** The public interface as data *)

(** The six display-control toggles. *)
Inductive toggle : Type :=
  | EnableCursor
  | DisableCursor
  | EnableCursorBlink
  | DisableCursorBlink
  | EnableDisplay
  | DisableDisplay.

(** The public methods with their arguments ([send_commands] and
    [send_text] are marked internal in the source). *)
Inductive operation : Type :=
  | Begin
  | DefaultSettings
  | Display (message : str)
  | AppendDisplay (message : str)
  | DisplayLines (first_line second_line : str)
  | DisplayScrolling (message : str) (duration : Z)
  | ClearDisplay
  | SetContrast (contrast : Z)
  | SetRgbBacklight (r g b : Z)
  | SetCursor (col row : Z)
  | Toggle (t : toggle)
  | EnableSystemMessages
  | DisableSystemMessages
  | EnableSplash
  | DisableSplash
  | SaveSplash
  | SetAddress (new_address : Z).

Definition call_toggle (env : Env) (t : toggle) : M value :=
  match t with
  | EnableCursor => enable_cursor env
  | DisableCursor => disable_cursor env
  | EnableCursorBlink => enable_cursor_blink env
  | DisableCursorBlink => disable_cursor_blink env
  | EnableDisplay => enable_display env
  | DisableDisplay => disable_display env
  end.

Definition call (env : Env) (o : operation) : M value :=
  match o with
  | Begin => begin env
  | DefaultSettings => default_settings env
  | Display m => display env m
  | AppendDisplay m => append_display env m
  | DisplayLines l1 l2 => display_lines env l1 l2
  | DisplayScrolling m d => display_scrolling env m d
  | ClearDisplay => clear_display env
  | SetContrast c => set_contrast env c
  | SetRgbBacklight r g b => set_rgb_backlight env r g b
  | SetCursor col row => set_cursor env col row
  | Toggle t => call_toggle env t
  | EnableSystemMessages => enable_system_messages env
  | DisableSystemMessages => disable_system_messages env
  | EnableSplash => enable_splash env
  | DisableSplash => disable_splash env
  | SaveSplash => save_splash env
  | SetAddress a => set_address env a
  end.

(** A caller driving the handle through a list of toggles, one after the
    other, whatever each of them reports. *)
Fixpoint run_toggles (env : Env) (ts : list toggle) (s : QwiicSerlcdU) (tr : trace)
  : QwiicSerlcdU * trace :=
  match ts with
  | [] => (s, tr)
  | t :: ts' =>
      let r := call_toggle env t s tr in
      run_toggles env ts' (handle_of r) (trace_of r)
  end.

(** ** Vocabulary of the specification *)

(** DisplayState: the display-control flags and the scroll state. *)
Definition display_state (s : QwiicSerlcdU) : Z * Z * Z :=
  (_displayControl s, index s, last_refreshed s).

(** A write reported failure: it raised, or what it returned is false
    under [bool()], the test [begin] applies to results. *)
Definition failed (o : outcome value) : Prop :=
  match o with
  | Returns v => truth v = false
  | Raises _ => True
  end.

(** The columns*rows of a handle. *)
Definition window_len (s : QwiicSerlcdU) : Z := lcd_columns s * lcd_rows s.

(** DisplayControlFlags as the set {display-on, cursor-on, blink-on}. *)
Record DisplayControlFlags : Type := {
  display_on : bool;
  cursor_on : bool;
  blink_on : bool
}.

Definition initial_flags : DisplayControlFlags :=
  {| display_on := true; cursor_on := false; blink_on := false |}.

Definition set_flag (f : DisplayControlFlags) (t : toggle) : DisplayControlFlags :=
  match t with
  | EnableCursor => {| display_on := display_on f; cursor_on := true; blink_on := blink_on f |}
  | DisableCursor => {| display_on := display_on f; cursor_on := false; blink_on := blink_on f |}
  | EnableCursorBlink => {| display_on := display_on f; cursor_on := cursor_on f; blink_on := true |}
  | DisableCursorBlink => {| display_on := display_on f; cursor_on := cursor_on f; blink_on := false |}
  | EnableDisplay => {| display_on := true; cursor_on := cursor_on f; blink_on := blink_on f |}
  | DisableDisplay => {| display_on := false; cursor_on := cursor_on f; blink_on := blink_on f |}
  end.

(** The set accumulated by a sequence of toggles. *)
Definition accumulate (ts : list toggle) : DisplayControlFlags :=
  fold_left set_flag ts initial_flags.

(** The bitfield of a set of flags. *)
Definition flag_bits (f : DisplayControlFlags) : Z :=
  (if display_on f then 4 else 0) + (if cursor_on f then 2 else 0)
  + (if blink_on f then 1 else 0).

(** Which of the three flags a toggle addresses (0 display, 1 cursor,
    2 blink), and whether the flag already has the value the toggle gives. *)
Definition flag_of (t : toggle) : nat :=
  match t with
  | EnableDisplay | DisableDisplay => 0
  | EnableCursor | DisableCursor => 1
  | EnableCursorBlink | DisableCursorBlink => 2
  end%nat.

Definition already (f : DisplayControlFlags) (t : toggle) : bool :=
  match t with
  | EnableCursor => cursor_on f
  | DisableCursor => negb (cursor_on f)
  | EnableCursorBlink => blink_on f
  | DisableCursorBlink => negb (blink_on f)
  | EnableDisplay => display_on f
  | DisableDisplay => negb (display_on f)
  end.

(** The control command a toggle sends for a given set of flags. *)
Definition control_command (f : DisplayControlFlags) : payload :=
  Bytearray [0xFE; Z.lor 0x08 (flag_bits f)].

(** RowAddressTable and the clamp of a row into [0, 3]. *)
Definition RowAddressTable : list Z := [0x00; 0x40; 0x14; 0x54].

Definition clamp_row (row : Z) : nat :=
  if row <? 0 then 0%nat else if row >? 3 then 3%nat else Z.to_nat row.

(** The clear command. *)
Definition clear_command : payload := Bytearray [0x7C; 0x2D].

(** A line cut to [columns] characters and filled with spaces up to
    exactly [columns]. *)
Definition padded_line (line : str) (columns : nat) : str :=
  firstn columns line ++ repeat " "%char (columns - List.length (firstn columns line)).

(** The scrolling window in the specification's words:
    [message[index : index+window_len]] followed, if that run overruns the
    message, by [message[0 : overrun]]. *)
Definition scroll_window (message : str) (window index : nat) : str :=
  firstn window (skipn index message)
  ++ (if (List.length message <? window + index)%nat
      then firstn (window + index - List.length message) message
      else []).

(** The index after one scroll step. *)
Definition next_index (message : str) (i : Z) : Z :=
  if i + 1 >? len message then 0 else i + 1.

(** The single write of the operations that issue exactly one, for the
    handle they are called on; [None] for the operations that issue
    several or none ([begin], [default_settings], [display],
    [display_lines], [display_scrolling]). *)
Definition toggled (t : toggle) (d : Z) : Z :=
  match t with
  | EnableCursor => Z.lor d 0x02
  | DisableCursor => Z.land d (Z.lnot 0x02)
  | EnableCursorBlink => Z.lor d 0x01
  | DisableCursorBlink => Z.land d (Z.lnot 0x01)
  | EnableDisplay => Z.lor d 0x04
  | DisableDisplay => Z.land d (Z.lnot 0x04)
  end.

Definition single_write (o : operation) (s : QwiicSerlcdU) : option payload :=
  match o with
  | Begin | DefaultSettings | Display _ | DisplayLines _ _ | DisplayScrolling _ _ => None
  | AppendDisplay m => Some (Text m)
  | ClearDisplay => Some (Bytearray [0x7C; 0x2D])
  | SetContrast c => Some (Bytearray [0x7C; 0x18; c])
  | SetRgbBacklight r g b => Some (Bytearray [0x7C; 0x2B; r; g; b])
  | SetCursor col row =>
      Some (Bytearray [0xFE; Z.lor 0x80 (col + nth (clamp_row row) RowAddressTable 0)])
  | Toggle t => Some (Bytearray [0xFE; Z.lor 0x08 (toggled t (_displayControl s))])
  | EnableSystemMessages => Some (Bytearray [0x7C; 0x2E])
  | DisableSystemMessages => Some (Bytearray [0x7C; 0x2F])
  | EnableSplash => Some (Bytearray [0x7C; 0x30])
  | DisableSplash => Some (Bytearray [0x7C; 0x31])
  | SaveSplash => Some (Bytearray [0x7C; 0x0A])
  | SetAddress a => Some (Bytearray [0x7C; 0x19; a])
  end.

(** The operations that write DisplayState. *)
Definition updates_display_state (o : operation) : bool :=
  match o with
  | Toggle _ | DefaultSettings | DisplayScrolling _ _ => true
  | _ => false
  end.

(** The bus reports the outcome of every write through its result: no
    write raises. *)
Definition returns_always (env : Env) : Prop :=
  forall tr a p, exists v, writeto env tr a p = Returns v.

(** ** Concrete collaborators for the examples *)

(** A bus that acknowledges every write. *)
Definition bus_ack : Env :=
  {| writeto := fun _ _ _ => Returns (VInt 1);
     ticks_ms := fun tr => 1000 * len tr;
     ticks_diff := fun a b => a - b |}.

(** A bus on which every write reports failure through its result. *)
Definition bus_nack : Env :=
  {| writeto := fun _ _ _ => Returns (VInt 0);
     ticks_ms := fun tr => 1000 * len tr;
     ticks_diff := fun a b => a - b |}.

(** A bus on which every write raises [OSError(5)]. *)
Definition bus_down : Env :=
  {| writeto := fun _ _ _ => Raises (OSError 5);
     ticks_ms := fun tr => 1000 * len tr;
     ticks_diff := fun a b => a - b |}.

Definition lcd (env : Env) (columns rows : Z) : QwiicSerlcdU :=
  fst (init env 0x72 columns rows []).

Definition lit (s : string) : str := list_ascii_of_string s.

(** ** Callers and trace vocabulary for the further properties *)

(** [lcd.display_scrolling(message, duration)] called [n] times in a row,
    as a polling loop does. *)
Fixpoint scroll_times (env : Env) (message : str) (duration : Z) (n : nat) : M value :=
  match n with
  | O => ret VNone
  | S k => display_scrolling env message duration ;; scroll_times env message duration k
  end.

(** The caller polls slowly: between a reading of the clock and any later
    one, more than [duration] has elapsed. *)
Definition slow_polling (env : Env) (duration : Z) : Prop :=
  forall tr tr',
    tr' <> [] -> ticks_diff env (ticks_ms env (tr ++ tr')) (ticks_ms env tr) > duration.

(** Every write of a trace is directly followed by the 10 ms sleep. *)
Fixpoint settled (tr : trace) : bool :=
  match tr with
  | [] => true
  | Write _ _ :: tr' =>
      match tr' with
      | Sleep ms :: _ => (ms =? 10) && settled tr'
      | _ => false
      end
  | _ :: tr' => settled tr'
  end.

(** A method only appends to the trace, and what it appends is settled. *)
Definition paced {A : Type} (m : M A) : Prop :=
  forall s tr, exists added, trace_of (m s tr) = tr ++ added /\ settled added = true.

(** The characters of the text writes, in the order they were sent. *)
Fixpoint chars_written (ws : list (Z * payload)) : str :=
  match ws with
  | [] => []
  | (_, Text t) :: ws' => t ++ chars_written ws'
  | (_, Bytearray _) :: ws' => chars_written ws'
  end.

(** The fade loop that ends the demo script, from its variables [i] and
    [j]:
    [while i != 20: lcd.set_rgb_backlight(j, j, i); if i < 41: j += 1; i -= 1].
    The loop is cut after [fuel] iterations; [None] tells that it was still
    running then, [Some (i, j)] gives the variables it ended with. *)
Fixpoint fade_loop (env : Env) (fuel : nat) (i j : Z) : M (option (Z * Z)) :=
  match fuel with
  | O => ret (if i =? 20 then Some (i, j) else None)
  | S fuel' =>
      if i =? 20 then ret (Some (i, j))
      else
        set_rgb_backlight env j j i ;;
        let j := if i <? 41 then j + 1 else j in
        let i := i - 1 in
        fade_loop env fuel' i j
  end.

(** ** Running the monad *)

Ltac run_methods :=
  cbv beta iota zeta delta
    [call call_toggle begin default_settings display append_display display_lines
     display_scrolling clear_display set_contrast set_rgb_backlight set_cursor
     enable_cursor disable_cursor enable_cursor_blink disable_cursor_blink
     enable_display disable_display enable_system_messages disable_system_messages
     enable_splash disable_splash save_splash set_address
     send_commands send_text utime_ticks_ms
     bind ret self assign i2c_writeto sleep handle_of outcome_of trace_of fst snd].

Ltac split_writes :=
  repeat match goal with
         | |- context [match writeto ?e ?t ?a ?p with _ => _ end] =>
             let E := fresh "W" in destruct (writeto e t a p) eqn:E
         end.

Lemma writes_app (tr1 tr2 : trace) :
  writes (tr1 ++ tr2) = writes tr1 ++ writes tr2.
Proof.
  induction tr1 as [| e tr1 IH]; simpl; [reflexivity |].
  destruct e; simpl; rewrite IH; reflexivity.
Qed.

Lemma send_commands_run env block s tr :
  send_commands env block s tr =
  match writeto env tr (address s) (Bytearray block) with
  | Returns v => (Returns v, s, tr ++ [Write (address s) (Bytearray block); Sleep 10])
  | Raises e => (Raises e, s, tr ++ [Write (address s) (Bytearray block)])
  end.
Proof.
  run_methods. destruct (writeto env tr (address s) (Bytearray block));
    rewrite <- ?app_assoc; reflexivity.
Qed.

Lemma send_text_run env t s tr :
  send_text env t s tr =
  match writeto env tr (address s) (Text t) with
  | Returns v => (Returns v, s, tr ++ [Write (address s) (Text t); Sleep 10])
  | Raises e => (Raises e, s, tr ++ [Write (address s) (Text t)])
  end.
Proof.
  run_methods. destruct (writeto env tr (address s) (Text t));
    rewrite <- ?app_assoc; reflexivity.
Qed.

(** Every toggle is a read-modify-write of the flags followed by the
    control command carrying the new flags. *)
Lemma call_toggle_run env t s tr :
  call_toggle env t s tr =
  send_commands env [0xFE; Z.lor 0x08 (toggled t (_displayControl s))]
    (with_displayControl (toggled t (_displayControl s)) s) tr.
Proof. destruct t; reflexivity. Qed.

Lemma clamp_row_min_max row :
  Z.to_nat (Z.min (Z.max 0 row) (MAX_ROWS - 1)) = clamp_row row.
Proof.
  unfold clamp_row, MAX_ROWS. rewrite Z.gtb_ltb.
  destruct (Z.ltb_spec row 0), (Z.ltb_spec 3 row); lia.
Qed.

(** After the two clamps the index is within the table, so the lookup
    returns. *)
Lemma py_index_clamped row :
  py_index [0x00; 0x40; 0x14; 0x54] (Z.min (Z.max 0 row) (MAX_ROWS - 1))
  = Returns (nth (clamp_row row) RowAddressTable 0).
Proof.
  rewrite <- clamp_row_min_max. unfold MAX_ROWS.
  assert (C : Z.min (Z.max 0 row) (4 - 1) = 0 \/ Z.min (Z.max 0 row) (4 - 1) = 1
              \/ Z.min (Z.max 0 row) (4 - 1) = 2 \/ Z.min (Z.max 0 row) (4 - 1) = 3) by lia.
  destruct C as [E | [E | [E | E]]]; rewrite E; reflexivity.
Qed.

Lemma set_cursor_run env col row s tr :
  set_cursor env col row s tr =
  send_commands env
    [0xFE; Z.lor 0x80 (col + nth (clamp_row row) RowAddressTable 0)] s tr.
Proof.
  unfold set_cursor, bind, lift. rewrite py_index_clamped. reflexivity.
Qed.

Ltac unfold_constants :=
  cbv delta
    [SPECIAL_COMMAND SETTING_COMMAND CLEAR_COMMAND CONTRAST_COMMAND ADDRESS_COMMAND
     SET_RGB_COMMAND ENABLE_SYSTEM_MESSAGE_DISPLAY DISABLE_SYSTEM_MESSAGE_DISPLAY
     ENABLE_SPLASH_DISPLAY DISABLE_SPLASH_DISPLAY SAVE_CURRENT_DISPLAY_AS_SPLASH
     LCD_DISPLAYCONTROL LCD_SETDDRAMADDR LCD_ENTRYMODESET
     LCD_DISPLAYON LCD_CURSORON LCD_BLINKON LCD_CURSOROFF LCD_BLINKOFF].

Ltac observe := cbn [outcome_of handle_of trace_of fst snd].

(** One write, its outcome handed back: the operations of [single_write]. *)
Lemma single_write_run env o s tr p :
  single_write o s = Some p ->
  outcome_of (call env o s tr) = writeto env tr (address s) p
  /\ writes (trace_of (call env o s tr)) = writes tr ++ [(address s, p)].
Proof.
  intros H.
  destruct o; cbn [single_write] in H; try discriminate; injection H as <-;
    cbn [call]; rewrite ?call_toggle_run, ?set_cursor_run;
    unfold append_display, clear_display, set_contrast, set_rgb_backlight,
      enable_system_messages, disable_system_messages, enable_splash,
      disable_splash, save_splash, set_address, bind;
    unfold_constants; rewrite ?send_commands_run, ?send_text_run;
    cbn [address with_displayControl];
    destruct (writeto env tr (address s) _);
    unfold sleep, assign, ret; observe;
    rewrite ?writes_app; cbn [writes]; rewrite ?app_nil_r; auto.
Qed.

(** ** Address change *)

(** C1, as the code has it: [set_address] stores [new_address] whenever the
    transport write returns, whatever result it returns (a false one as
    well), hands that result back and has slept the extra 50 ms; the stored
    address stays the old one only when the write raises. *)
Theorem set_address_stores_new_address env new_address s tr :
  let r := set_address env new_address s tr in
  let w := Write (address s) (Bytearray [0x7C; 0x19; new_address]) in
  match writeto env tr (address s) (Bytearray [0x7C; 0x19; new_address]) with
  | Returns v =>
      outcome_of r = Returns v
      /\ address (handle_of r) = new_address
      /\ trace_of r = tr ++ [w; Sleep 10; Sleep 50]
  | Raises e =>
      outcome_of r = Raises e
      /\ address (handle_of r) = address s
      /\ trace_of r = tr ++ [w]
  end.
Proof.
  intros r w. subst r w. unfold set_address, bind. unfold_constants.
  rewrite send_commands_run.
  destruct (writeto env tr (address s) _); unfold sleep, assign, ret; observe.
  - rewrite <- app_assoc. auto.
  - auto.
Qed.

(** C1 as stated fails: on a bus whose write reports failure through its
    result, [set_address(0x50)] leaves 0x50 in the handle, not 0x72. *)
Lemma set_address_failed_write_moves_address :
  failed (writeto bus_nack [] (address (lcd bus_nack 16 2)) (Bytearray [0x7C; 0x19; 0x50]))
  /\ address (lcd bus_nack 16 2) = 0x72
  /\ address (handle_of (set_address bus_nack 0x50 (lcd bus_nack 16 2) [])) = 0x50
  /\ address (handle_of (set_address bus_nack 0x50 (lcd bus_nack 16 2) []))
     <> address (lcd bus_nack 16 2).
Proof. repeat split; try reflexivity. vm_compute. discriminate. Qed.

(** ** Results handed back *)

(** C9, as the code has it: every public operation other than [begin],
    [default_settings], [display], [display_lines] and [display_scrolling]
    issues exactly one transport write and hands its outcome back
    unchanged; when one of those four others returns, it returns [None] and
    has not issued exactly one write. *)
Theorem single_write_result_propagated env o s tr :
  let r := call env o s tr in
  match single_write o s with
  | Some p =>
      outcome_of r = writeto env tr (address s) p
      /\ writes (trace_of r) = writes tr ++ [(address s, p)]
  | None =>
      o = Begin
      \/ (forall v, outcome_of r = Returns v ->
            v = VNone /\ length (writes (trace_of r)) <> S (length (writes tr)))
  end.
Proof.
  intros r. subst r.
  destruct (single_write o s) as [p |] eqn:E.
  - apply single_write_run; assumption.
  - destruct o; cbn [single_write] in E; try discriminate; [now left | right ..];
      intros v; run_methods; split_writes; intros H; try discriminate;
      try (destruct (ticks_diff env _ _ >? _); split_writes; try discriminate);
      try (destruct (_ >? len _));
      injection H as <-; (split; [reflexivity |]);
      rewrite ?writes_app; cbn [writes]; rewrite ?length_app; cbn [length]; lia.
Qed.

Lemma single_write_result_propagated_witness :
  outcome_of (call bus_nack (SetContrast 20) (lcd bus_nack 16 2) []) = Returns (VInt 0)
  /\ (forall v,
        outcome_of (call bus_ack DefaultSettings (lcd bus_ack 16 2) []) = Returns v ->
        v = VNone).
Proof.
  split.
  - exact (proj1 (single_write_result_propagated bus_nack (SetContrast 20)
                    (lcd bus_nack 16 2) [])).
  - intros v H.
    destruct (single_write_result_propagated bus_ack DefaultSettings
                (lcd bus_ack 16 2) []) as [E | K].
    + discriminate E.
    + exact (proj1 (K v H)).
Defined.

(** C9 as stated fails: [display] returns [None], which is the result of
    none of the writes it issued (the bus answered 1 to each). *)
Lemma display_result_not_propagated :
  outcome_of (call bus_ack (Display (lit "Hello")) (lcd bus_ack 16 2) []) = Returns VNone
  /\ ~ (exists tr a p,
          outcome_of (call bus_ack (Display (lit "Hello")) (lcd bus_ack 16 2) [])
          = writeto bus_ack tr a p).
Proof.
  split; [reflexivity |].
  intros (tr & a & p & H). vm_compute in H. discriminate H.
Qed.

(** ** DisplayState across a call *)

(** C2, as the code has it: an operation that issues a single write hands a
    failure the write reports back to the caller unchanged; DisplayState is
    left as it was, whatever the transport reports, by every operation other
    than the toggles, [default_settings] and [display_scrolling]; a toggle
    has updated the flags before its write, so they hold the toggled value
    after a failed write too, index and last-refresh untouched. *)
Theorem display_state_across_call env o s tr :
  let r := call env o s tr in
  (updates_display_state o = false -> display_state (handle_of r) = display_state s)
  /\ (forall p, single_write o s = Some p ->
        failed (writeto env tr (address s) p) ->
        outcome_of r = writeto env tr (address s) p /\ failed (outcome_of r))
  /\ (forall t, o = Toggle t ->
        display_state (handle_of r)
        = (toggled t (_displayControl s), index s, last_refreshed s)).
Proof.
  intros r. subst r. split; [| split].
  - intros H. destruct o; try discriminate H; clear H;
      cbn [call]; rewrite ?set_cursor_run;
      run_methods; split_writes; reflexivity.
  - intros p E F. destruct (single_write_run env o s tr p E) as [-> _]. auto.
  - intros t ->. cbn [call]. rewrite call_toggle_run, send_commands_run.
    destruct (writeto env tr _ _); reflexivity.
Qed.

Lemma display_state_across_call_witness :
  display_state (handle_of (call bus_nack (SetCursor 3 1) (lcd bus_nack 16 2) []))
  = display_state (lcd bus_nack 16 2)
  /\ outcome_of (call bus_nack (SetCursor 3 1) (lcd bus_nack 16 2) []) = Returns (VInt 0)
  /\ display_state (handle_of (call bus_down (Toggle EnableCursor) (lcd bus_down 16 2) []))
     = (6, 0, 0).
Proof.
  split; [| split].
  - apply (proj1 (display_state_across_call bus_nack (SetCursor 3 1)
                    (lcd bus_nack 16 2) [])).
    reflexivity.
  - apply (proj1 (proj2 (display_state_across_call bus_nack (SetCursor 3 1)
                           (lcd bus_nack 16 2) []))
             (Bytearray [0xFE; 0xC3])); reflexivity.
  - apply (proj2 (proj2 (display_state_across_call bus_down (Toggle EnableCursor)
                           (lcd bus_down 16 2) []))
             EnableCursor).
    reflexivity.
Defined.

(** C2 as stated fails: [enable_cursor] on a bus whose write reports
    failure leaves the flags at 6, not at the 4 they had before. *)
Lemma enable_cursor_failed_write_changes_flags :
  failed (writeto bus_nack [] 0x72 (Bytearray [0xFE; 0x0E]))
  /\ writes (trace_of (call bus_nack (Toggle EnableCursor) (lcd bus_nack 16 2) []))
     = [(0x72, Bytearray [0xFE; 0x0E])]
  /\ display_state (lcd bus_nack 16 2) = (4, 0, 0)
  /\ display_state (handle_of (call bus_nack (Toggle EnableCursor) (lcd bus_nack 16 2) []))
     = (6, 0, 0)
  /\ display_state (handle_of (call bus_nack (Toggle EnableCursor) (lcd bus_nack 16 2) []))
     <> display_state (lcd bus_nack 16 2).
Proof. repeat split; try reflexivity. vm_compute. discriminate. Qed.

(** ** Display-control toggles *)

(** The read-modify-write of the bitfield computes the set operation. *)
Lemma toggled_flag_bits f t :
  toggled t (flag_bits f) = flag_bits (set_flag f t).
Proof. destruct f as [[] [] []], t; reflexivity. Qed.

Lemma set_flag_commute f t1 t2 :
  flag_of t1 <> flag_of t2 ->
  set_flag (set_flag f t1) t2 = set_flag (set_flag f t2) t1.
Proof. destruct t1, t2; simpl; intros H; try reflexivity; contradiction H; reflexivity. Qed.

Lemma set_flag_idempotent f t :
  set_flag (set_flag f t) t = set_flag f t.
Proof. destruct t; reflexivity. Qed.

Lemma set_flag_already f t :
  already f t = true -> set_flag f t = f.
Proof.
  destruct f as [d c b], t; simpl; intros H;
    try (apply negb_true_iff in H); subst; reflexivity.
Qed.

Lemma accumulate_snoc ts t :
  accumulate (ts ++ [t]) = set_flag (accumulate ts) t.
Proof. unfold accumulate. rewrite fold_left_app. reflexivity. Qed.

Lemma call_toggle_effect env t s tr :
  handle_of (call_toggle env t s tr)
  = with_displayControl (toggled t (_displayControl s)) s
  /\ writes (trace_of (call_toggle env t s tr))
     = writes tr ++ [(address s, Bytearray [0xFE; Z.lor 0x08 (toggled t (_displayControl s))])].
Proof.
  rewrite call_toggle_run, send_commands_run.
  destruct (writeto env tr _ _); observe; rewrite writes_app; auto.
Qed.

Lemma run_toggles_from env ts :
  forall s tr f,
    _displayControl s = flag_bits f ->
    _displayControl (fst (run_toggles env ts s tr)) = flag_bits (fold_left set_flag ts f)
    /\ writes (snd (run_toggles env ts s tr))
       = writes tr
         ++ map (fun k => (address s,
                           control_command (fold_left set_flag (firstn (S k) ts) f)))
              (seq 0 (length ts)).
Proof.
  induction ts as [| t ts IH]; intros s tr f Hf.
  - simpl. rewrite app_nil_r. auto.
  - cbn [run_toggles].
    destruct (call_toggle_effect env t s tr) as [Hh Hw].
    destruct (IH (handle_of (call_toggle env t s tr))
                 (trace_of (call_toggle env t s tr)) (set_flag f t)) as [IH1 IH2].
    { rewrite Hh, Hf. apply toggled_flag_bits. }
    split; [exact IH1 |].
    rewrite IH2, Hw, Hh, Hf, toggled_flag_bits, <- app_assoc.
    cbn [length seq map app firstn fold_left with_displayControl address].
    rewrite <- seq_shift, map_map. reflexivity.
Qed.

(** C5: starting from a fresh handle, the k-th toggle of any sequence sends
    0xFE, 0x08 | flags with flags the bitfield of the set accumulated by
    the toggles up to and including it, and the handle ends with the
    bitfield of the whole sequence; toggles of different flags commute, a
    repeated toggle changes nothing more, and a toggle whose flag already
    has the requested value leaves the bitfield as it is. *)
Theorem toggles_send_accumulated_flags env i2c_address columns rows tr0 ts :
  let s0 := fst (init env i2c_address columns rows tr0) in
  let tr1 := snd (init env i2c_address columns rows tr0) in
  let flags_after l := _displayControl (fst (run_toggles env l s0 tr1)) in
  writes (snd (run_toggles env ts s0 tr1))
  = writes tr1
    ++ map (fun k => (i2c_address, control_command (accumulate (firstn (S k) ts))))
         (seq 0 (length ts))
  /\ flags_after ts = flag_bits (accumulate ts)
  /\ (forall t1 t2, flag_of t1 <> flag_of t2 ->
        flags_after (ts ++ [t1; t2]) = flags_after (ts ++ [t2; t1]))
  /\ (forall t, flags_after (ts ++ [t; t]) = flags_after (ts ++ [t]))
  /\ (forall t, already (accumulate ts) t = true ->
        flags_after (ts ++ [t]) = flags_after ts).
Proof.
  intros s0 tr1 flags_after.
  assert (A : forall l, flags_after l = flag_bits (accumulate l)).
  { intros l. apply (run_toggles_from env l s0 tr1 initial_flags). reflexivity. }
  split; [| split; [| split; [| split]]].
  - apply (run_toggles_from env ts s0 tr1 initial_flags). reflexivity.
  - apply A.
  - intros t1 t2 H. rewrite !A.
    change [t1; t2] with ([t1] ++ [t2]). change [t2; t1] with ([t2] ++ [t1]).
    rewrite !app_assoc, !accumulate_snoc, set_flag_commute by assumption. reflexivity.
  - intros t. rewrite !A.
    change [t; t] with ([t] ++ [t]).
    rewrite !app_assoc, !accumulate_snoc, set_flag_idempotent. reflexivity.
  - intros t H. rewrite !A, accumulate_snoc, set_flag_already by assumption. reflexivity.
Qed.

Lemma toggles_send_accumulated_flags_witness :
  writes (snd (run_toggles bus_nack [EnableCursor; EnableCursorBlink; DisableDisplay]
                 (lcd bus_nack 16 2) [Ticks]))
  = [(0x72, Bytearray [0xFE; 0x0E]); (0x72, Bytearray [0xFE; 0x0F]);
     (0x72, Bytearray [0xFE; 0x0B])]
  /\ _displayControl
       (fst (run_toggles bus_nack ([EnableCursor] ++ [EnableCursorBlink; DisableDisplay])
               (lcd bus_nack 16 2) [Ticks]))
     = _displayControl
         (fst (run_toggles bus_nack ([EnableCursor] ++ [DisableDisplay; EnableCursorBlink])
                 (lcd bus_nack 16 2) [Ticks]))
  /\ _displayControl
       (fst (run_toggles bus_nack ([EnableCursor] ++ [EnableCursor])
               (lcd bus_nack 16 2) [Ticks]))
     = _displayControl (fst (run_toggles bus_nack [EnableCursor] (lcd bus_nack 16 2) [Ticks])).
Proof.
  split; [| split].
  - exact (proj1 (toggles_send_accumulated_flags bus_nack 0x72 16 2 []
                    [EnableCursor; EnableCursorBlink; DisableDisplay])).
  - apply (proj1 (proj2 (proj2 (toggles_send_accumulated_flags bus_nack 0x72 16 2 []
                                  [EnableCursor])))
             EnableCursorBlink DisableDisplay).
    simpl. discriminate.
  - apply (proj2 (proj2 (proj2 (proj2 (toggles_send_accumulated_flags bus_nack 0x72 16 2 []
                                         [EnableCursor]))))
             EnableCursor).
    reflexivity.
Defined.

(** ** Cursor addressing *)




(** Without the lower clamp the table would be read from its end: as a
    Python index, -1 names the last offset, and 4 names none. *)
Example row_offsets_unclamped :
  py_index [0x00; 0x40; 0x14; 0x54] (-1) = Returns 0x54
  /\ py_index [0x00; 0x40; 0x14; 0x54] 4 = Raises IndexError.
Proof. split; reflexivity. Qed.

(** ** Slices and padding *)

Lemma py_slice_prefix {A : Type} (l : list A) (n : Z) :
  0 <= n -> py_slice l 0 n = firstn (Z.to_nat n) l.
Proof.
  intros H. unfold py_slice, slice_bound, len.
  destruct (Z.ltb_spec n 0); [lia |]. cbn [Z.ltb Z.compare].
  rewrite (Z.min_l 0) by lia. cbn [Z.to_nat skipn]. rewrite Z.sub_0_r.
  destruct (Z.le_ge_cases n (Z.of_nat (length l))).
  - rewrite Z.min_l by lia. reflexivity.
  - rewrite Z.min_r by lia. rewrite Nat2Z.id.
    rewrite !firstn_all2 by lia. reflexivity.
Qed.

Lemma pad_loop (xs : list Z) :
  forall l : str, fold_left (fun l _ => l ++ [" "%char]) xs l = l ++ repeat " "%char (length xs).
Proof.
  induction xs as [| x xs IH]; intros l; simpl.
  - rewrite app_nil_r. reflexivity.
  - rewrite IH, <- app_assoc. reflexivity.
Qed.

(** The truncation and the loop of [display_lines] yield the padded line. *)
Lemma pad_line_padded (line : str) (columns : Z) :
  0 <= columns ->
  pad_line (py_slice line 0 columns) columns = padded_line line (Z.to_nat columns).
Proof.
  intros H. rewrite py_slice_prefix by assumption.
  unfold pad_line, padded_line, py_range, len.
  rewrite pad_loop, length_map, length_seq. f_equal. f_equal. lia.
Qed.

Lemma padded_line_length (line : str) (columns : nat) :
  length (padded_line line columns) = columns.
Proof.
  unfold padded_line. rewrite length_app, repeat_length.
  pose proof (firstn_le_length columns line).
  rewrite length_firstn. lia.
Qed.

(** ** Text display *)

Lemma display_writes env message s tr :
  writes (trace_of (display env message s tr))
  = writes tr
    ++ (address s, clear_command)
       :: match writeto env tr (address s) clear_command with
          | Returns _ => [(address s, Text (py_slice message 0 (window_len s)))]
          | Raises _ => []
          end.
Proof.
  unfold clear_command, window_len. run_methods. unfold_constants.
  split_writes; rewrite ?writes_app; cbn [writes]; rewrite ?app_nil_r, <- ?app_assoc;
    reflexivity.
Qed.

Lemma display_raises env message s tr e :
  writeto env tr (address s) clear_command = Raises e ->
  outcome_of (display env message s tr) = Raises e.
Proof.
  unfold clear_command. run_methods. unfold_constants. intros ->. reflexivity.
Qed.

(** C7: [display] sends the clear command 0x7C, 0x2D and then, as text, the
    first columns*rows characters of the message: a longer message loses
    its tail, a shorter one is sent as it is.  (If the clear write raises,
    the exception reaches the caller and nothing more is sent.) *)
Theorem display_clears_then_truncates env message s tr :
  0 <= lcd_columns s * lcd_rows s ->
  let r := display env message s tr in
  let shown := firstn (Z.to_nat (lcd_columns s * lcd_rows s)) message in
  match writeto env tr (address s) clear_command with
  | Returns _ =>
      writes (trace_of r)
      = writes tr ++ [(address s, clear_command); (address s, Text shown)]
  | Raises e =>
      writes (trace_of r) = writes tr ++ [(address s, clear_command)]
      /\ outcome_of r = Raises e
  end.
Proof.
  intros H r shown. subst r shown.
  pose proof (display_writes env message s tr) as Hw.
  pose proof (display_raises env message s tr) as Hr.
  destruct (writeto env tr (address s) clear_command).
  - rewrite Hw. unfold window_len. rewrite py_slice_prefix by assumption. reflexivity.
  - split; [exact Hw | apply Hr; reflexivity].
Qed.

Lemma display_clears_then_truncates_witness :
  writes (trace_of (display bus_ack (lit "Hello") (lcd bus_ack 16 2) []))
  = [(0x72, Bytearray [0x7C; 0x2D]); (0x72, Text (lit "Hello"))]
  /\ writes (trace_of (display bus_ack (lit "Hello, wide world") (lcd bus_ack 4 2) []))
     = [(0x72, Bytearray [0x7C; 0x2D]); (0x72, Text (lit "Hello, w"))].
Proof.
  split.
  - apply (display_clears_then_truncates bus_ack (lit "Hello") (lcd bus_ack 16 2) []).
    simpl. lia.
  - apply (display_clears_then_truncates bus_ack (lit "Hello, wide world")
             (lcd bus_ack 4 2) []).
    simpl. lia.
Defined.

Lemma display_lines_run env first_line second_line s tr :
  display_lines env first_line second_line s tr
  = display env
      (pad_line (py_slice first_line 0 (lcd_columns s)) (lcd_columns s)
       ++ py_slice second_line 0 (lcd_columns s)) s tr.
Proof. reflexivity. Qed.

(** C8, as the code has it: on a handle with at least two rows,
    [display_lines] cuts each line to [columns] characters, fills the first
    with spaces to exactly [columns] characters and sends, after the clear
    command, the two joined.  (The joined text goes through [display],
    which keeps columns*rows characters of it.) *)
Theorem display_lines_pads_first_line env first_line second_line s tr :
  0 <= lcd_columns s ->
  2 <= lcd_rows s ->
  let r := display_lines env first_line second_line s tr in
  let columns := Z.to_nat (lcd_columns s) in
  let shown := padded_line first_line columns ++ firstn columns second_line in
  length (padded_line first_line columns) = columns
  /\ match writeto env tr (address s) clear_command with
     | Returns _ =>
         writes (trace_of r)
         = writes tr ++ [(address s, clear_command); (address s, Text shown)]
     | Raises e =>
         writes (trace_of r) = writes tr ++ [(address s, clear_command)]
         /\ outcome_of r = Raises e
     end.
Proof.
  intros Hc Hr r columns shown. subst r columns shown.
  split; [apply padded_line_length |].
  rewrite display_lines_run.
  pose proof (display_writes env
                (pad_line (py_slice first_line 0 (lcd_columns s)) (lcd_columns s)
                 ++ py_slice second_line 0 (lcd_columns s)) s tr) as D.
  pose proof (display_raises env
                (pad_line (py_slice first_line 0 (lcd_columns s)) (lcd_columns s)
                 ++ py_slice second_line 0 (lcd_columns s)) s tr) as X.
  destruct (writeto env tr (address s) clear_command);
    [| split; [exact D | apply X; reflexivity]].
  rewrite D. unfold window_len.
  rewrite (py_slice_prefix _ (lcd_columns s * lcd_rows s)) by nia.
  rewrite pad_line_padded, py_slice_prefix by assumption.
  rewrite firstn_all2; [reflexivity |].
  rewrite length_app, padded_line_length.
  pose proof (firstn_le_length (Z.to_nat (lcd_columns s)) second_line).
  nia.
Qed.

Lemma display_lines_pads_first_line_witness :
  writes (trace_of (display_lines bus_ack (lit "AB") (lit "CD") (lcd bus_ack 4 2) []))
  = [(0x72, Bytearray [0x7C; 0x2D]); (0x72, Text (lit "AB  CD"))].
Proof.
  apply (display_lines_pads_first_line bus_ack (lit "AB") (lit "CD") (lcd bus_ack 4 2) []);
    simpl; lia.
Defined.

(** C8 as stated fails on a one-row handle: with 4 columns,
    [display_lines("AB", "CD")] sends "AB  " and not "AB  CD". *)
Lemma display_lines_one_row_payload :
  writes (trace_of (display_lines bus_ack (lit "AB") (lit "CD") (lcd bus_ack 4 1) []))
  = [(0x72, Bytearray [0x7C; 0x2D]); (0x72, Text (lit "AB  "))]
  /\ writes (trace_of (display_lines bus_ack (lit "AB") (lit "CD") (lcd bus_ack 4 1) []))
     <> [(0x72, Bytearray [0x7C; 0x2D]); (0x72, Text (lit "AB  CD"))].
Proof. split; [reflexivity | vm_compute; discriminate]. Qed.

(** C10: on a handle with one row, [display_lines] sends, after the clear
    command, the first line cut and filled to exactly [columns] characters
    and nothing of the second line: [display] keeps columns*1 characters
    of the joined text. *)
Theorem display_lines_one_row_drops_second_line env first_line second_line s tr :
  lcd_rows s = 1 ->
  0 <= lcd_columns s ->
  let r := display_lines env first_line second_line s tr in
  let columns := Z.to_nat (lcd_columns s) in
  length (padded_line first_line columns) = columns
  /\ match writeto env tr (address s) clear_command with
     | Returns _ =>
         writes (trace_of r)
         = writes tr ++ [(address s, clear_command);
                         (address s, Text (padded_line first_line columns))]
     | Raises e =>
         writes (trace_of r) = writes tr ++ [(address s, clear_command)]
         /\ outcome_of r = Raises e
     end.
Proof.
  intros Hr Hc r columns. subst r columns.
  split; [apply padded_line_length |].
  rewrite display_lines_run.
  pose proof (display_writes env
                (pad_line (py_slice first_line 0 (lcd_columns s)) (lcd_columns s)
                 ++ py_slice second_line 0 (lcd_columns s)) s tr) as D.
  pose proof (display_raises env
                (pad_line (py_slice first_line 0 (lcd_columns s)) (lcd_columns s)
                 ++ py_slice second_line 0 (lcd_columns s)) s tr) as X.
  destruct (writeto env tr (address s) clear_command);
    [| split; [exact D | apply X; reflexivity]].
  rewrite D. unfold window_len. rewrite Hr, Z.mul_1_r.
  rewrite (py_slice_prefix _ (lcd_columns s)) by assumption.
  rewrite pad_line_padded by assumption.
  rewrite firstn_app, padded_line_length, Nat.sub_diag, firstn_O, app_nil_r.
  rewrite firstn_all2; [reflexivity |].
  rewrite padded_line_length. lia.
Qed.

Lemma display_lines_one_row_drops_second_line_witness :
  writes (trace_of (display_lines bus_ack (lit "Temp") (lit "21 C") (lcd bus_ack 8 1) []))
  = [(0x72, Bytearray [0x7C; 0x2D]); (0x72, Text (lit "Temp    "))].
Proof.
  apply (display_lines_one_row_drops_second_line bus_ack (lit "Temp") (lit "21 C")
           (lcd bus_ack 8 1) []);
    [reflexivity | simpl; lia].
Defined.

(** ** The scrolling window *)

Lemma py_slice_from {A : Type} (l : list A) (lo hi : Z) :
  0 <= lo -> 0 <= hi ->
  py_slice l lo hi = firstn (Z.to_nat (hi - lo)) (skipn (Z.to_nat lo) l).
Proof.
  intros Hlo Hhi. unfold py_slice, slice_bound, len.
  destruct (Z.ltb_spec lo 0); [lia |]. destruct (Z.ltb_spec hi 0); [lia |].
  destruct (Z.le_gt_cases (Z.of_nat (length l)) lo) as [Hn | Hn].
  - rewrite (Z.min_r lo) by lia. rewrite Nat2Z.id.
    rewrite skipn_all. rewrite (skipn_all2 l) by lia. rewrite !firstn_nil. reflexivity.
  - rewrite (Z.min_l lo) by lia.
    destruct (Z.le_gt_cases hi (Z.of_nat (length l))) as [Hh | Hh].
    + rewrite (Z.min_l hi) by lia. reflexivity.
    + rewrite (Z.min_r hi) by lia.
      rewrite !firstn_all2; [reflexivity | |]; rewrite length_skipn; lia.
Qed.

(** Within the invariant, the window the code composes is the window of
    the specification. *)
Lemma visible_message_scroll_window (s : QwiicSerlcdU) (message : str) :
  0 <= window_len s ->
  0 <= index s ->
  visible_message s message
  = scroll_window message (Z.to_nat (window_len s)) (Z.to_nat (index s)).
Proof.
  unfold window_len. intros Hw Hi. unfold visible_message, scroll_window, len.
  rewrite py_slice_from by lia.
  replace (lcd_columns s * lcd_rows s + index s - index s)
    with (lcd_columns s * lcd_rows s) by lia.
  rewrite Z.gtb_ltb.
  destruct (Z.ltb_spec (Z.of_nat (length message)) (lcd_columns s * lcd_rows s + index s)),
    (Nat.ltb_spec (length message)
       (Z.to_nat (lcd_columns s * lcd_rows s) + Z.to_nat (index s))); try lia.
  - rewrite py_slice_prefix by lia. do 2 f_equal. lia.
  - rewrite app_nil_r. reflexivity.
Qed.

Lemma scroll_window_length (message : str) (window index : nat) :
  (index <= length message)%nat ->
  (length (scroll_window message window index) <= window)%nat
  /\ ((window <= length message)%nat ->
      length (scroll_window message window index) = window).
Proof.
  intros H. unfold scroll_window.
  rewrite length_app, length_firstn, length_skipn.
  destruct (Nat.ltb_spec (length message) (window + index));
    cbn [length]; rewrite ?length_firstn; lia.
Qed.

(** C4, as the code has it: for an index within [0, len(message)] the
    window composed by [display_scrolling] never has more than columns*rows
    characters, and it has exactly columns*rows of them when the message
    has at least that many; the code wraps around the end of the message
    once only. *)
Theorem visible_message_length (s : QwiicSerlcdU) (message : str) :
  0 <= window_len s ->
  0 <= index s <= len message ->
  len (visible_message s message) <= window_len s
  /\ (window_len s <= len message -> len (visible_message s message) = window_len s).
Proof.
  intros Hw Hi. rewrite visible_message_scroll_window by lia.
  unfold len in *.
  destruct (scroll_window_length message (Z.to_nat (window_len s)) (Z.to_nat (index s)))
    as [A B]; [lia |].
  split; [lia |]. intros Hl. rewrite B; lia.
Qed.

Lemma visible_message_length_witness :
  len (visible_message (with_index 4 (lcd bus_ack 3 1)) (lit "ABCDE")) = 3.
Proof.
  apply (visible_message_length (with_index 4 (lcd bus_ack 3 1)) (lit "ABCDE"));
    vm_compute; try split; congruence.
Defined.

(** C4 as stated fails for a message shorter than the window: on a fresh
    16x2 handle a due [display_scrolling("Hi", 0)] composes and sends
    "HiHi", 4 characters and not 32. *)
Lemma short_message_window_is_short :
  index (lcd bus_ack 16 2) = 0
  /\ visible_message (lcd bus_ack 16 2) (lit "Hi") = lit "HiHi"
  /\ writes (trace_of (display_scrolling bus_ack (lit "Hi") 0 (lcd bus_ack 16 2) [Ticks]))
     = [(0x72, Bytearray [0x7C; 0x2D]); (0x72, Text (lit "HiHi"))]
  /\ len (visible_message (lcd bus_ack 16 2) (lit "Hi"))
     <> lcd_columns (lcd bus_ack 16 2) * lcd_rows (lcd bus_ack 16 2).
Proof. repeat split; try reflexivity. vm_compute. discriminate. Qed.

(** A due call of [display_scrolling] on a bus whose writes return. *)
Lemma display_scrolling_due_run env message duration s tr :
  returns_always env ->
  ticks_diff env (ticks_ms env tr) (last_refreshed s) > duration ->
  let shown := py_slice (visible_message s message) 0 (window_len s) in
  let tr' := tr ++ [Ticks; Write (address s) clear_command; Sleep 10;
                    Write (address s) (Text shown); Sleep 10] in
  display_scrolling env message duration s tr
  = (Returns VNone,
     with_index (next_index message (index s)) (with_last_refreshed (ticks_ms env tr') s),
     tr' ++ [Ticks]).
Proof.
  intros Hret Hdue shown tr'. subst shown tr'.
  unfold clear_command, window_len, next_index. run_methods. unfold_constants.
  cbn [last_refreshed].
  rewrite (proj2 (Z.gtb_gt _ _) Hdue).
  destruct (Hret (tr ++ [Ticks]) (address s) (Bytearray [124; 45])) as [v1 ->].
  cbn [address lcd_columns lcd_rows].
  destruct (Hret ((tr ++ [Ticks]) ++ [Write (address s) (Bytearray [124; 45])] ++ [Sleep 10])
              (address s)
              (Text (py_slice (visible_message s message) 0 (lcd_columns s * lcd_rows s))))
    as [v2 E2].
  rewrite <- !app_assoc in *. cbn [app] in *. rewrite E2.
  unfold with_index, with_last_refreshed.
  cbn [address lcd_columns lcd_rows last_refreshed index _displayControl].
  destruct (index s + 1 >? len message);
    cbn [address lcd_columns lcd_rows last_refreshed index _displayControl];
    rewrite <- ?app_assoc; reflexivity.
Qed.

(** C3: a due call of [display_scrolling] (the bus returning from its
    writes, the index within [0, len(message)]) clears the display and sends
    the window message[index : index+columns*rows] followed, when that run
    overruns the message, by message[0 : overrun]; it then reads the clock
    again into last-refresh and advances the index by one, back to 0 once it
    would exceed len(message), so the index stays within [0, len(message)]. *)
Theorem display_scrolling_due_window env message duration s tr :
  returns_always env ->
  ticks_diff env (ticks_ms env tr) (last_refreshed s) > duration ->
  0 <= window_len s ->
  0 <= index s <= len message ->
  let r := display_scrolling env message duration s tr in
  let window := scroll_window message (Z.to_nat (window_len s)) (Z.to_nat (index s)) in
  let shown := tr ++ [Ticks; Write (address s) clear_command; Sleep 10;
                      Write (address s) (Text window); Sleep 10] in
  outcome_of r = Returns VNone
  /\ trace_of r = shown ++ [Ticks]
  /\ index (handle_of r) = (if index s + 1 >? len message then 0 else index s + 1)
  /\ 0 <= index (handle_of r) <= len message
  /\ last_refreshed (handle_of r) = ticks_ms env shown
  /\ _displayControl (handle_of r) = _displayControl s.
Proof.
  intros Hret Hdue Hw Hi r window shown. subst r window shown.
  rewrite (display_scrolling_due_run env message duration s tr Hret Hdue).
  assert (E : py_slice (visible_message s message) 0 (window_len s)
              = scroll_window message (Z.to_nat (window_len s)) (Z.to_nat (index s))).
  { rewrite py_slice_prefix by assumption.
    rewrite visible_message_scroll_window by lia.
    apply firstn_all2.
    apply (scroll_window_length message (Z.to_nat (window_len s)) (Z.to_nat (index s))).
    unfold len in Hi. lia. }
  rewrite E. observe. unfold next_index.
  cbn [with_index with_last_refreshed index last_refreshed _displayControl].
  repeat split; try reflexivity;
    destruct (Z.gtb_spec (index s + 1) (len message)); lia.
Qed.

Lemma display_scrolling_due_window_witness :
  writes (trace_of (display_scrolling bus_ack (lit "ABCDE") 500
                      (with_index 4 (lcd bus_ack 3 1)) [Ticks]))
  = [(0x72, Bytearray [0x7C; 0x2D]); (0x72, Text (lit "EAB"))]
  /\ index (handle_of (display_scrolling bus_ack (lit "ABCDE") 500
                         (with_index 4 (lcd bus_ack 3 1)) [Ticks])) = 5
  /\ last_refreshed (handle_of (display_scrolling bus_ack (lit "ABCDE") 500
                                  (with_index 4 (lcd bus_ack 3 1)) [Ticks])) = 6000.
Proof.
  assert (H1 : returns_always bus_ack).
  { intros tr a p. exists (VInt 1). reflexivity. }
  assert (H2 : ticks_diff bus_ack (ticks_ms bus_ack [Ticks])
                 (last_refreshed (with_index 4 (lcd bus_ack 3 1))) > 500).
  { reflexivity. }
  assert (H3 : 0 <= window_len (with_index 4 (lcd bus_ack 3 1))).
  { vm_compute. discriminate. }
  assert (H4 : 0 <= index (with_index 4 (lcd bus_ack 3 1)) <= len (lit "ABCDE")).
  { split; vm_compute; discriminate. }
  destruct (display_scrolling_due_window bus_ack (lit "ABCDE") 500
              (with_index 4 (lcd bus_ack 3 1)) [Ticks] H1 H2 H3 H4)
    as (_ & T & I & _ & L & _).
  split; [| split].
  - rewrite T. reflexivity.
  - rewrite I. reflexivity.
  - rewrite L. reflexivity.
Defined.

(** * Further properties of the driver *)

(** On a bus that returns from every write, replace each write by the
    result it gives. *)
Ltac returning H :=
  repeat match goal with
         | |- context [writeto ?e ?t ?a ?p] =>
             let v := fresh "v" in
             let E := fresh "E" in
             destruct (H t a p) as [v E]; rewrite E; clear E; cbv beta iota zeta
         end.

Lemma flags_cases (d : Z) :
  0 <= d <= 7 -> d = 0 \/ d = 1 \/ d = 2 \/ d = 3 \/ d = 4 \/ d = 5 \/ d = 6 \/ d = 7.
Proof. lia. Qed.

Lemma toggled_range (t : toggle) (d : Z) :
  0 <= d <= 7 -> 0 <= toggled t d <= 7.
Proof.
  intros H. destruct (flags_cases d H) as [E | [E | [E | [E | [E | [E | [E | E]]]]]]];
    subst d; destruct t; vm_compute; split; discriminate.
Qed.

(** ** begin *)

(** [begin] waits one second, retransmits the flags the handle holds at
    that moment (it does not reset them), sets entry mode 0x06 and clears;
    on a bus that returns from every write it returns the conjunction of
    the three results under [bool()], and it leaves the handle as it was. *)
Theorem begin_returns_conjunction env s tr :
  returns_always env ->
  let c0 := Bytearray [0xFE; Z.lor 0x08 (_displayControl s)] in
  let c1 := Bytearray [0xFE; 0x06] in
  let t0 := tr ++ [Sleep 1000] in
  let t1 := t0 ++ [Write (address s) c0; Sleep 10] in
  let t2 := t1 ++ [Write (address s) c1; Sleep 10] in
  let r := begin env s tr in
  exists v0 v1 v2,
    writeto env t0 (address s) c0 = Returns v0
    /\ writeto env t1 (address s) c1 = Returns v1
    /\ writeto env t2 (address s) clear_command = Returns v2
    /\ outcome_of r = Returns (VBool (truth v0 && truth v1 && truth v2))
    /\ trace_of r = t2 ++ [Write (address s) clear_command; Sleep 10]
    /\ handle_of r = s.
Proof.
  intros Hret c0 c1 t0 t1 t2 r. subst c0 c1 t0 t1 t2 r. unfold clear_command.
  destruct (Hret (tr ++ [Sleep 1000]) (address s)
              (Bytearray [0xFE; Z.lor 0x08 (_displayControl s)])) as [v0 E0].
  destruct (Hret ((tr ++ [Sleep 1000])
                  ++ [Write (address s) (Bytearray [0xFE; Z.lor 0x08 (_displayControl s)]);
                      Sleep 10])
              (address s) (Bytearray [0xFE; 0x06])) as [v1 E1].
  destruct (Hret (((tr ++ [Sleep 1000])
                   ++ [Write (address s) (Bytearray [0xFE; Z.lor 0x08 (_displayControl s)]);
                       Sleep 10])
                  ++ [Write (address s) (Bytearray [0xFE; 0x06]); Sleep 10])
              (address s) (Bytearray [0x7C; 0x2D])) as [v2 E2].
  exists v0, v1, v2. repeat (split; [assumption |]).
  unfold begin, clear_display, bind, sleep, self. rewrite send_commands_run.
  unfold_constants. rewrite E0, send_commands_run.
  change (Z.lor 4 _displayMode) with 6.
  rewrite E1, send_commands_run, E2. unfold ret. observe. auto.
Qed.

Lemma begin_returns_conjunction_witness :
  outcome_of (begin bus_nack (lcd bus_nack 16 2) []) = Returns (VBool false)
  /\ writes (trace_of (begin bus_ack (with_displayControl 6 (lcd bus_ack 16 2)) []))
     = [(0x72, Bytearray [0xFE; 0x0E]); (0x72, Bytearray [0xFE; 0x06]);
        (0x72, Bytearray [0x7C; 0x2D])].
Proof.
  split.
  - destruct (begin_returns_conjunction bus_nack (lcd bus_nack 16 2) [])
      as (v0 & v1 & v2 & E0 & E1 & E2 & O & _).
    + intros tr a p. exists (VInt 0). reflexivity.
    + rewrite O. injection E0 as <-. injection E1 as <-. injection E2 as <-. reflexivity.
  - destruct (begin_returns_conjunction bus_ack (with_displayControl 6 (lcd bus_ack 16 2)) [])
      as (v0 & v1 & v2 & _ & _ & _ & _ & T & _).
    + intros tr a p. exists (VInt 1). reflexivity.
    + rewrite T. reflexivity.
Defined.

(** When the first write of [begin] raises, the exception reaches the
    caller and neither the entry mode nor the clear command is sent. *)
Theorem begin_stops_at_first_raise env s tr e :
  writeto env (tr ++ [Sleep 1000]) (address s)
    (Bytearray [0xFE; Z.lor 0x08 (_displayControl s)]) = Raises e ->
  outcome_of (begin env s tr) = Raises e
  /\ writes (trace_of (begin env s tr))
     = writes tr ++ [(address s, Bytearray [0xFE; Z.lor 0x08 (_displayControl s)])]
  /\ handle_of (begin env s tr) = s.
Proof.
  intros E. unfold begin, bind, sleep, self. rewrite send_commands_run.
  unfold_constants. rewrite E. observe.
  rewrite !writes_app. cbn [writes]. rewrite app_nil_r. auto.
Qed.

Lemma begin_stops_at_first_raise_witness :
  outcome_of (begin bus_down (lcd bus_down 16 2) []) = Raises (OSError 5)
  /\ writes (trace_of (begin bus_down (lcd bus_down 16 2) []))
     = [(0x72, Bytearray [0xFE; 0x0C])].
Proof.
  destruct (begin_stops_at_first_raise bus_down (lcd bus_down 16 2) [] (OSError 5))
    as (O & W & _).
  - reflexivity.
  - split; [exact O | exact W].
Defined.

(** ** default_settings *)

Ltac collect_writes :=
  rewrite ?writes_app; cbn [writes]; rewrite ?app_nil_r, <- ?app_assoc; cbn [app].

(** On a bus that returns from every write, [default_settings] sends eight
    commands in this order: display off, system messages off, contrast 20,
    backlight (20, 20, 20), splash on, clear, system messages on, display
    on.  It returns [None] and leaves the display flag on; the cursor and
    blink flags are not reset, they keep the value they had. *)
Theorem default_settings_sequence env s tr :
  returns_always env ->
  let off := Z.land (_displayControl s) (Z.lnot 0x04) in
  let on := Z.lor off 0x04 in
  let r := default_settings env s tr in
  outcome_of r = Returns VNone
  /\ writes (trace_of r)
     = writes tr
       ++ map (fun block => (address s, Bytearray block))
            [[0xFE; Z.lor 0x08 off]; [0x7C; 0x2F]; [0x7C; 0x18; 20];
             [0x7C; 0x2B; 20; 20; 20]; [0x7C; 0x30]; [0x7C; 0x2D]; [0x7C; 0x2E];
             [0xFE; Z.lor 0x08 on]]
  /\ handle_of r = with_displayControl on s
  /\ (0 <= _displayControl s <= 7 -> on = Z.lor (_displayControl s) 0x04).
Proof.
  intros Hret off on r. subst off on r.
  split; [| split; [| split]].
  - run_methods. returning Hret. reflexivity.
  - run_methods. unfold_constants. unfold _defaultValue.
    cbn [address with_displayControl _displayControl].
    returning Hret. collect_writes. reflexivity.
  - run_methods. unfold_constants. returning Hret.
    unfold with_displayControl.
    cbn [address lcd_columns lcd_rows last_refreshed index _displayControl].
    reflexivity.
  - intros H.
    destruct (flags_cases _ H) as [E | [E | [E | [E | [E | [E | [E | E]]]]]]];
      rewrite E; reflexivity.
Qed.

Lemma default_settings_sequence_witness :
  _displayControl
    (handle_of (default_settings bus_nack (with_displayControl 3 (lcd bus_nack 16 2)) []))
  = 7.
Proof.
  destruct (default_settings_sequence bus_nack (with_displayControl 3 (lcd bus_nack 16 2)) [])
    as (_ & _ & H & _).
  - intros tr a p. exists (VInt 0). reflexivity.
  - rewrite H. reflexivity.
Defined.

(** When the first write of [default_settings] raises, the exception reaches
    the caller, no other command is sent, and the handle is left with the
    display flag cleared. *)
Theorem default_settings_interrupted env s tr e :
  let off := Z.land (_displayControl s) (Z.lnot 0x04) in
  writeto env tr (address s) (Bytearray [0xFE; Z.lor 0x08 off]) = Raises e ->
  let r := default_settings env s tr in
  outcome_of r = Raises e
  /\ writes (trace_of r) = writes tr ++ [(address s, Bytearray [0xFE; Z.lor 0x08 off])]
  /\ handle_of r = with_displayControl off s.
Proof.
  intros off E r. subst off r.
  run_methods. unfold_constants. cbn [address with_displayControl _displayControl].
  rewrite E. collect_writes. auto.
Qed.

Lemma default_settings_interrupted_witness :
  outcome_of (default_settings bus_down (lcd bus_down 16 2) []) = Raises (OSError 5)
  /\ _displayControl (handle_of (default_settings bus_down (lcd bus_down 16 2) [])) = 0.
Proof.
  destruct (default_settings_interrupted bus_down (lcd bus_down 16 2) [] (OSError 5))
    as (O & _ & H).
  - reflexivity.
  - split; [exact O | rewrite H; reflexivity].
Defined.

(** ** display_scrolling: gating, failure, cycle *)

(** A call that is not due (the elapsed time does not exceed [duration])
    only reads the clock: nothing is written to the bus and the handle,
    scroll state included, is as before. *)
Theorem display_scrolling_not_due env message duration s tr :
  ticks_diff env (ticks_ms env tr) (last_refreshed s) <= duration ->
  display_scrolling env message duration s tr = (Returns VNone, s, tr ++ [Ticks]).
Proof.
  intros H. run_methods.
  destruct (Z.gtb_spec (ticks_diff env (ticks_ms env tr) (last_refreshed s)) duration);
    [lia | reflexivity].
Qed.

Lemma display_scrolling_not_due_witness :
  display_scrolling bus_ack (lit "ABCDE") 5000 (lcd bus_ack 3 1) [Ticks]
  = (Returns VNone, lcd bus_ack 3 1, [Ticks; Ticks]).
Proof.
  apply (display_scrolling_not_due bus_ack (lit "ABCDE") 5000 (lcd bus_ack 3 1) [Ticks]).
  vm_compute. discriminate.
Defined.

(** When the clear write of a due call raises, the exception reaches the
    caller and the scroll step is not consumed: index and last-refresh are
    as before, so the next call composes the same window again. *)
Theorem display_scrolling_raise_keeps_scroll_state env message duration s tr e :
  ticks_diff env (ticks_ms env tr) (last_refreshed s) > duration ->
  writeto env (tr ++ [Ticks]) (address s) clear_command = Raises e ->
  let r := display_scrolling env message duration s tr in
  outcome_of r = Raises e
  /\ handle_of r = s
  /\ writes (trace_of r) = writes tr ++ [(address s, clear_command)].
Proof.
  intros Hdue E r. subst r. unfold clear_command in *.
  run_methods. unfold_constants. rewrite (proj2 (Z.gtb_gt _ _) Hdue), E.
  collect_writes. auto.
Qed.

Lemma display_scrolling_raise_keeps_scroll_state_witness :
  handle_of (display_scrolling bus_down (lit "ABCDE") 500
               (with_index 4 (lcd bus_down 3 1)) [Ticks])
  = with_index 4 (lcd bus_down 3 1).
Proof.
  apply (display_scrolling_raise_keeps_scroll_state bus_down (lit "ABCDE") 500
           (with_index 4 (lcd bus_down 3 1)) [Ticks] (OSError 5)); reflexivity.
Defined.

Lemma next_index_mod (message : str) (i : Z) :
  0 <= i <= len message ->
  0 <= next_index message i <= len message
  /\ next_index message i = (i + 1) mod (len message + 1).
Proof.
  intros H. unfold next_index.
  destruct (Z.gtb_spec (i + 1) (len message)).
  - split; [lia |]. replace (i + 1) with (len message + 1) by lia.
    rewrite Z.mod_same by lia. reflexivity.
  - split; [lia |]. rewrite Z.mod_small by lia. reflexivity.
Qed.

(** Polling [display_scrolling] slowly enough for every call to be due, on
    a bus that returns: after [n] calls the index is
    (index + n) mod (len(message)+1), so a full cycle takes len(message)+1
    steps, and each call has issued two writes. *)
Theorem scroll_times_index env message duration n :
  forall s tr,
    returns_always env ->
    slow_polling env duration ->
    ticks_diff env (ticks_ms env tr) (last_refreshed s) > duration ->
    0 <= index s <= len message ->
    let r := scroll_times env message duration n s tr in
    outcome_of r = Returns VNone
    /\ index (handle_of r) = (index s + Z.of_nat n) mod (len message + 1)
    /\ length (writes (trace_of r)) = (length (writes tr) + 2 * n)%nat.
Proof.
  induction n as [| n IH]; intros s tr Hret Hslow Hdue Hi r; subst r.
  - cbn [scroll_times]. unfold ret. observe.
    rewrite Z.add_0_r, Z.mod_small by lia. auto.
  - cbn [scroll_times]. unfold bind.
    rewrite (display_scrolling_due_run env message duration s tr Hret Hdue).
    destruct (next_index_mod message (index s) Hi) as [Hb Hm].
    match goal with
    | |- context [scroll_times env message duration n ?s1 (?t1 ++ [Ticks])] =>
        destruct (IH s1 (t1 ++ [Ticks]) Hret Hslow) as (O & I & W);
        [apply (Hslow t1 [Ticks]); discriminate | exact Hb |]
    end.
    cbv zeta in O, I, W. rewrite O, I, W.
    cbn [with_index index]. rewrite Hm, Z.add_mod_idemp_l by lia.
    split; [reflexivity |]. split; [f_equal; lia |].
    collect_writes. rewrite !length_app. cbn [length]. lia.
Qed.

Lemma scroll_times_index_witness :
  index (handle_of (scroll_times bus_ack (lit "ABCDE") 500 6 (lcd bus_ack 3 1) [Ticks])) = 0.
Proof.
  assert (R : returns_always bus_ack).
  { intros tr a p. exists (VInt 1). reflexivity. }
  assert (P : slow_polling bus_ack 500).
  { intros tr tr' H. cbn [ticks_diff ticks_ms bus_ack]. unfold len.
    rewrite length_app. destruct tr'; [contradiction H; reflexivity |]. cbn [length]. lia. }
  assert (D : ticks_diff bus_ack (ticks_ms bus_ack [Ticks]) (last_refreshed (lcd bus_ack 3 1))
              > 500).
  { reflexivity. }
  assert (I : 0 <= index (lcd bus_ack 3 1) <= len (lit "ABCDE")).
  { split; vm_compute; discriminate. }
  destruct (scroll_times_index bus_ack (lit "ABCDE") 500 6 (lcd bus_ack 3 1) [Ticks] R P D I)
    as (_ & H & _).
  rewrite H. reflexivity.
Defined.

(** ** The window is a circular read of the message *)

Lemma scroll_window_nth (message : str) (window index k : nat) :
  (index <= length message)%nat ->
  (window <= length message)%nat ->
  (k < window)%nat ->
  nth_error (scroll_window message window index) k
  = nth_error message
      (if (index + k <? length message)%nat then index + k
       else index + k - length message)%nat.
Proof.
  intros Hi Hw Hk. unfold scroll_window.
  destruct (Nat.ltb_spec (index + k) (length message)) as [Hin | Hout].
  - rewrite nth_error_app1 by (rewrite length_firstn, length_skipn; lia).
    rewrite nth_error_firstn, nth_error_skipn.
    destruct (Nat.ltb_spec k window); [reflexivity | lia].
  - rewrite nth_error_app2 by (rewrite length_firstn, length_skipn; lia).
    rewrite length_firstn, length_skipn.
    destruct (Nat.ltb_spec (length message) (window + index)); [| lia].
    rewrite nth_error_firstn.
    destruct (Nat.ltb_spec (k - Nat.min window (length message - index))
                (window + index - length message)); [| lia].
    f_equal. lia.
Qed.

(** For a message of at least columns*rows characters and an index within
    [0, len(message)], character [k] of the window is character
    (index + k) mod len(message) of the message. *)
Theorem visible_message_is_circular (s : QwiicSerlcdU) (message : str) (k : Z) :
  0 <= window_len s <= len message ->
  0 <= index s <= len message ->
  0 <= k < window_len s ->
  nth_error (visible_message s message) (Z.to_nat k)
  = nth_error message (Z.to_nat ((index s + k) mod len message)).
Proof.
  intros Hw Hi Hk. rewrite visible_message_scroll_window by lia.
  unfold len in *.
  rewrite scroll_window_nth by lia. f_equal.
  destruct (Nat.ltb_spec (Z.to_nat (index s) + Z.to_nat k) (length message)).
  - rewrite Z.mod_small by lia. lia.
  - replace ((index s + k) mod Z.of_nat (length message))
      with (index s + k - Z.of_nat (length message)); [lia |].
    apply Z.mod_unique with (q := 1); lia.
Qed.

Lemma visible_message_is_circular_witness :
  nth_error (visible_message (with_index 4 (lcd bus_ack 3 1)) (lit "ABCDE")) (Z.to_nat 1)
  = nth_error (lit "ABCDE") (Z.to_nat ((4 + 1) mod 5)).
Proof.
  apply (visible_message_is_circular (with_index 4 (lcd bus_ack 3 1)) (lit "ABCDE") 1);
    split; vm_compute; congruence.
Defined.

(** For a message of at least columns*rows characters, the window composed
    at index len(message) is the window composed at index 0: each cycle of
    the scroll shows that frame twice in a row. *)
Theorem window_repeats_at_wrap (s : QwiicSerlcdU) (message : str) :
  0 <= window_len s <= len message ->
  visible_message (with_index (len message) s) message
  = visible_message (with_index 0 s) message.
Proof.
  intros Hw.
  rewrite !visible_message_scroll_window
    by (unfold window_len, len in *; cbn [with_index lcd_columns lcd_rows index]; lia).
  change (window_len (with_index (len message) s)) with (window_len s).
  change (window_len (with_index 0 s)) with (window_len s).
  cbn [with_index index]. unfold len in *. rewrite Nat2Z.id.
  unfold scroll_window. cbn [Z.to_nat skipn]. rewrite skipn_all, firstn_nil.
  rewrite Nat.add_0_r.
  destruct (Nat.ltb_spec (length message) (Z.to_nat (window_len s))); [lia |].
  rewrite app_nil_r. cbn [app].
  destruct (Nat.ltb_spec (length message) (Z.to_nat (window_len s) + length message)).
  - f_equal. lia.
  - replace (Z.to_nat (window_len s)) with 0%nat by lia. reflexivity.
Qed.

Lemma window_repeats_at_wrap_witness :
  visible_message (with_index (len (lit "ABCDE")) (lcd bus_ack 3 1)) (lit "ABCDE")
  = visible_message (with_index 0 (lcd bus_ack 3 1)) (lit "ABCDE").
Proof.
  apply (window_repeats_at_wrap (lcd bus_ack 3 1) (lit "ABCDE")).
  split; vm_compute; discriminate.
Defined.

(** ** Address change followed by another operation *)

Lemma single_write_with_address (o : operation) (a : Z) (s : QwiicSerlcdU) :
  single_write o (with_address a s) = single_write o s.
Proof. destruct o; reflexivity. Qed.

(** After a [set_address] whose write returned (whatever result), the next
    single-write operation is addressed to the new address: the address
    command itself still goes to the old one. *)
Theorem set_address_redirects_next_write env new_address o p s tr :
  (exists v, writeto env tr (address s) (Bytearray [0x7C; 0x19; new_address]) = Returns v) ->
  single_write o s = Some p ->
  writes (trace_of ((set_address env new_address ;; call env o) s tr))
  = writes tr ++ [(address s, Bytearray [0x7C; 0x19; new_address]); (new_address, p)].
Proof.
  intros [v E] Hp. unfold bind at 1. unfold set_address, bind. unfold_constants.
  rewrite send_commands_run, E. unfold sleep, assign, ret.
  destruct (single_write_run env o (with_address new_address s)
              ((tr ++ [Write (address s) (Bytearray [124; 25; new_address]); Sleep 10])
               ++ [Sleep 50]) p) as [_ W].
  { rewrite single_write_with_address. exact Hp. }
  rewrite W. collect_writes. reflexivity.
Qed.

Lemma set_address_redirects_next_write_witness :
  writes (trace_of ((set_address bus_nack 0x50 ;; call bus_nack ClearDisplay)
                      (lcd bus_nack 16 2) []))
  = [(0x72, Bytearray [0x7C; 0x19; 0x50]); (0x50, Bytearray [0x7C; 0x2D])].
Proof.
  apply (set_address_redirects_next_write bus_nack 0x50 ClearDisplay
           (Bytearray [0x7C; 0x2D]) (lcd bus_nack 16 2) []).
  - exists (VInt 0). reflexivity.
  - reflexivity.
Defined.

(** ** What no operation changes *)

(** Whatever the bus does, a public operation never changes the column and
    row counts, changes the address only if it is [set_address], keeps the
    flags within [0, 7] and keeps the index non-negative. *)
Theorem call_preserves_invariants env o s tr :
  0 <= _displayControl s <= 7 ->
  0 <= index s ->
  let s' := handle_of (call env o s tr) in
  lcd_columns s' = lcd_columns s
  /\ lcd_rows s' = lcd_rows s
  /\ (address s' = address s \/ exists a, o = SetAddress a)
  /\ 0 <= _displayControl s' <= 7
  /\ 0 <= index s'.
Proof.
  intros Hd Hi s'. subst s'.
  pose proof (toggled_range DisableDisplay _ Hd) as Hoff.
  pose proof (toggled_range EnableDisplay _ Hoff) as Hon.
  cbn [toggled] in Hoff, Hon.
  destruct o; cbn [call]; rewrite ?set_cursor_run;
    try (rewrite call_toggle_run, send_commands_run;
         pose proof (toggled_range t _ Hd);
         destruct (writeto env tr _ _); observe;
         cbn [with_displayControl lcd_columns lcd_rows address _displayControl index];
         auto 10);
    try (run_methods; unfold_constants;
         try (destruct (ticks_diff env _ _ >? _); cbv beta iota zeta);
         split_writes;
         cbn [with_displayControl with_index with_last_refreshed with_address
                lcd_columns lcd_rows address _displayControl index];
         try (destruct (Z.gtb_spec (index s + 1) (len message)));
         cbn [with_displayControl with_index with_last_refreshed with_address
                lcd_columns lcd_rows address _displayControl index];
         repeat split; eauto; lia).
Qed.

Lemma call_preserves_invariants_witness :
  0 <= _displayControl (handle_of (call bus_down DefaultSettings (lcd bus_down 16 2) [])) <= 7.
Proof.
  apply (call_preserves_invariants bus_down DefaultSettings (lcd bus_down 16 2) []);
    try split; vm_compute; discriminate.
Defined.

(** ** Cursor addresses within and beyond 20 columns *)

Lemma lor_128_add (x : Z) :
  0 <= x < 128 -> Z.lor 128 x = 128 + x.
Proof.
  intros H.
  assert (T : forallb (fun n => Z.lor 128 (Z.of_nat n) =? 128 + Z.of_nat n) (seq 0 128) = true)
    by (vm_compute; reflexivity).
  rewrite forallb_forall in T.
  specialize (T (Z.to_nat x)). rewrite Z2Nat.id in T by lia.
  apply Z.eqb_eq, T, in_seq. lia.
Qed.

Lemma row_offset_cases (row : Z) :
  0 <= row < MAX_ROWS ->
  (row = 0 /\ nth (clamp_row row) RowAddressTable 0 = 0)
  \/ (row = 1 /\ nth (clamp_row row) RowAddressTable 0 = 64)
  \/ (row = 2 /\ nth (clamp_row row) RowAddressTable 0 = 20)
  \/ (row = 3 /\ nth (clamp_row row) RowAddressTable 0 = 84).
Proof.
  unfold MAX_ROWS. intros H.
  assert (C : row = 0 \/ row = 1 \/ row = 2 \/ row = 3) by lia.
  destruct C as [E | [E | [E | E]]]; subst row; auto 10.
Qed.

Lemma set_cursor_writes env col row s tr :
  writes (trace_of (set_cursor env col row s tr))
  = writes tr
    ++ [(address s,
         Bytearray [0xFE; Z.lor 0x80 (col + nth (clamp_row row) RowAddressTable 0)])].
Proof. apply (single_write_run env (SetCursor col row) s tr). reflexivity. Qed.

(** For a column below MAX_COLUMNS (and any row) the address byte is
    0x80 + col + offset, no bit of the sum is lost in the OR, and it is a
    byte in [0x80, 0xE7]. *)
Theorem set_cursor_address_byte env col row s tr :
  0 <= col < MAX_COLUMNS ->
  let offset := nth (clamp_row row) RowAddressTable 0 in
  writes (trace_of (set_cursor env col row s tr))
  = writes tr ++ [(address s, Bytearray [0xFE; 0x80 + col + offset])]
  /\ 0x80 <= 0x80 + col + offset <= 0xE7.
Proof.
  intros Hc offset. subst offset. unfold MAX_COLUMNS in Hc.
  assert (Ho : 0 <= nth (clamp_row row) RowAddressTable 0 <= 84).
  { unfold clamp_row. rewrite Z.gtb_ltb.
    destruct (Z.ltb_spec row 0); [cbn; lia |].
    destruct (Z.ltb_spec 3 row); [cbn; lia |].
    destruct (row_offset_cases row) as [[_ E] | [[_ E] | [[_ E] | [_ E]]]];
      [unfold MAX_ROWS; lia | | | |];
      unfold clamp_row in E; rewrite Z.gtb_ltb in E;
      destruct (Z.ltb_spec row 0); try lia; destruct (Z.ltb_spec 3 row); try lia;
      rewrite E; lia. }
  split; [| lia].
  rewrite set_cursor_writes, lor_128_add by lia.
  rewrite Z.add_assoc. reflexivity.
Qed.

Lemma set_cursor_address_byte_witness :
  writes (trace_of (set_cursor bus_ack 19 3 (lcd bus_ack 20 4) []))
  = [(0x72, Bytearray [0xFE; 0xE7])].
Proof.
  apply (set_cursor_address_byte bus_ack 19 3 (lcd bus_ack 20 4) []).
  split; vm_compute; congruence.
Defined.

(** Within MAX_COLUMNS columns and MAX_ROWS rows, two different cursor
    positions never produce the same command. *)
Theorem set_cursor_positions_distinct env col row col' row' s tr :
  0 <= col < MAX_COLUMNS ->
  0 <= row < MAX_ROWS ->
  0 <= col' < MAX_COLUMNS ->
  0 <= row' < MAX_ROWS ->
  col <> col' \/ row <> row' ->
  writes (trace_of (set_cursor env col row s tr))
  <> writes (trace_of (set_cursor env col' row' s tr)).
Proof.
  unfold MAX_COLUMNS. intros Hc Hr Hc' Hr' D E.
  rewrite !set_cursor_writes in E.
  assert (J : forall x y : Z,
             [(address s, Bytearray [0xFE; x])] = [(address s, Bytearray [0xFE; y])] -> x = y)
    by (intros x y H; congruence).
  destruct (row_offset_cases row Hr) as [[R O] | [[R O] | [[R O] | [R O]]]];
    destruct (row_offset_cases row' Hr') as [[R' O'] | [[R' O'] | [[R' O'] | [R' O']]]];
    rewrite O, O' in E; rewrite !lor_128_add in E by lia;
    apply app_inv_head, J in E; lia.
Qed.

Lemma set_cursor_positions_distinct_witness :
  writes (trace_of (set_cursor bus_ack 0 2 (lcd bus_ack 20 4) []))
  <> writes (trace_of (set_cursor bus_ack 19 0 (lcd bus_ack 20 4) [])).
Proof.
  apply (set_cursor_positions_distinct bus_ack 0 2 19 0 (lcd bus_ack 20 4) []);
    try (split; vm_compute; congruence).
  left. discriminate.
Defined.

(** The column is not checked against the width: twenty columns past a
    position of row 0 is the same command as that position of row 2, and
    twenty columns past a position of row 1 the same as that of row 3. *)
Theorem set_cursor_column_overflow env col s tr :
  set_cursor env (col + 20) 0 s tr = set_cursor env col 2 s tr
  /\ set_cursor env (col + 20) 1 s tr = set_cursor env col 3 s tr.
Proof.
  rewrite !set_cursor_run.
  change (nth (clamp_row 0) RowAddressTable 0) with 0.
  change (nth (clamp_row 1) RowAddressTable 0) with 64.
  change (nth (clamp_row 2) RowAddressTable 0) with 20.
  change (nth (clamp_row 3) RowAddressTable 0) with 84.
  replace (col + 20 + 0) with (col + 20) by lia.
  replace (col + 20 + 64) with (col + 84) by lia.
  split; reflexivity.
Qed.

(** ** The settle delay after every write *)

Lemma settled_app (a b : trace) :
  settled a = true -> settled b = true -> settled (a ++ b) = true.
Proof.
  induction a as [| e a IH]; intros Ha Hb; [exact Hb |].
  destruct e as [ad p | ms |]; cbn [app settled] in *.
  - destruct a as [| e' a']; [discriminate Ha |].
    destruct e' as [ad' p' | ms' |]; try discriminate Ha.
    cbn [app]. apply andb_true_iff in Ha. destruct Ha as [H1 H2].
    rewrite H1. cbn [andb]. apply IH; assumption.
  - apply IH; assumption.
  - apply IH; assumption.
Qed.

Lemma paced_ret {A : Type} (a : A) : paced (ret a).
Proof. intros s tr. exists []. rewrite app_nil_r. auto. Qed.

Lemma paced_self : paced self.
Proof. intros s tr. exists []. rewrite app_nil_r. auto. Qed.

Lemma paced_assign f : paced (assign f).
Proof. intros s tr. exists []. rewrite app_nil_r. auto. Qed.

Lemma paced_sleep ms : paced (sleep ms).
Proof. intros s tr. exists [Sleep ms]. auto. Qed.

Lemma paced_ticks env : paced (utime_ticks_ms env).
Proof. intros s tr. exists [Ticks]. auto. Qed.

Lemma paced_bind {A B : Type} (m : M A) (k : A -> M B) :
  paced m -> (forall a, paced (k a)) -> paced (bind m k).
Proof.
  intros Hm Hk s tr. destruct (Hm s tr) as (ad & E & S).
  unfold bind. destruct (m s tr) as [[o s'] tr']. unfold trace_of in E. cbn [snd] in E.
  subst tr'. destruct o as [a | e].
  - destruct (Hk a s' (tr ++ ad)) as (ad2 & E2 & S2).
    exists (ad ++ ad2). rewrite E2, app_assoc. split; [reflexivity |].
    apply settled_app; assumption.
  - exists ad. auto.
Qed.

Lemma paced_send_commands env block :
  returns_always env -> paced (send_commands env block).
Proof.
  intros Hret s tr. rewrite send_commands_run.
  destruct (Hret tr (address s) (Bytearray block)) as [v ->].
  exists [Write (address s) (Bytearray block); Sleep 10]. auto.
Qed.

Lemma paced_send_text env t :
  returns_always env -> paced (send_text env t).
Proof.
  intros Hret s tr. rewrite send_text_run.
  destruct (Hret tr (address s) (Text t)) as [v ->].
  exists [Write (address s) (Text t); Sleep 10]. auto.
Qed.

Lemma paced_lift {A : Type} (o : outcome A) : paced (lift o).
Proof. intros s tr. exists []. rewrite app_nil_r. auto. Qed.

Ltac pace H :=
  repeat first
    [ apply paced_send_commands; exact H
    | apply paced_lift
    | apply paced_send_text; exact H
    | apply paced_ret
    | apply paced_self
    | apply paced_assign
    | apply paced_sleep
    | apply paced_ticks
    | apply paced_bind; [| intros ?]
    | match goal with
      | |- paced (if ?c then _ else _) => destruct c
      end ].

(** On a bus that returns from every write, a public operation only appends
    to the trace of calls, and every write it issues is directly followed
    by the 10 ms sleep, before any other write or clock reading. *)
Theorem every_write_is_settled env o s tr :
  returns_always env ->
  exists added,
    trace_of (call env o s tr) = tr ++ added /\ settled added = true.
Proof.
  intros Hret. revert s tr. change (paced (call env o)).
  destruct o; try destruct t;
    cbv beta zeta delta
      [call call_toggle begin default_settings display append_display display_lines
       display_scrolling clear_display set_contrast set_rgb_backlight set_cursor
       enable_cursor disable_cursor enable_cursor_blink disable_cursor_blink
       enable_display disable_display enable_system_messages disable_system_messages
       enable_splash disable_splash save_splash set_address];
    pace Hret.
Qed.

Lemma every_write_is_settled_witness :
  exists added,
    trace_of (call bus_ack DefaultSettings (lcd bus_ack 16 2) [Ticks]) = [Ticks] ++ added
    /\ settled added = true.
Proof.
  apply (every_write_is_settled bus_ack DefaultSettings (lcd bus_ack 16 2) [Ticks]).
  intros tr a p. exists (VInt 1). reflexivity.
Defined.

(** ** display followed by append_display *)

Lemma chars_written_app (ws1 ws2 : list (Z * payload)) :
  chars_written (ws1 ++ ws2) = chars_written ws1 ++ chars_written ws2.
Proof.
  induction ws1 as [| [a p] ws1 IH]; [reflexivity |].
  destruct p; cbn [app chars_written]; rewrite IH, ?app_assoc; reflexivity.
Qed.

(** On a bus that returns, [display(m1)] followed by [append_display(m2)]
    sends the clear command and then the two texts untouched; when the two
    fit in columns*rows characters, these are the characters that
    [display(m1 + m2)] sends. *)
Theorem display_then_append env m1 m2 s tr :
  returns_always env ->
  len m1 + len m2 <= window_len s ->
  let r := (display env m1 ;; append_display env m2) s tr in
  writes (trace_of r)
  = writes tr ++ [(address s, clear_command); (address s, Text m1); (address s, Text m2)]
  /\ chars_written (writes (trace_of r))
     = chars_written (writes (trace_of (display env (m1 ++ m2) s tr))).
Proof.
  intros Hret Hfit r. subst r.
  assert (H1 : py_slice m1 0 (window_len s) = m1).
  { unfold len in Hfit. rewrite py_slice_prefix by lia. apply firstn_all2. lia. }
  assert (H2 : py_slice (m1 ++ m2) 0 (window_len s) = m1 ++ m2).
  { unfold len in Hfit. rewrite py_slice_prefix by lia. apply firstn_all2.
    rewrite length_app. lia. }
  assert (W : writes (trace_of ((display env m1 ;; append_display env m2) s tr))
              = writes tr ++ [(address s, clear_command); (address s, Text m1);
                              (address s, Text m2)]).
  { unfold window_len, clear_command in *. run_methods. unfold_constants.
    returning Hret. rewrite H1. returning Hret. collect_writes. reflexivity. }
  split; [exact W |].
  rewrite W, display_writes, H2.
  destruct (Hret tr (address s) clear_command) as [v ->].
  rewrite !chars_written_app. cbn [chars_written]. rewrite !app_nil_r. reflexivity.
Qed.

Lemma display_then_append_witness :
  writes (trace_of ((display bus_ack (lit "Hello world") ;; append_display bus_ack (lit " HEY!"))
                      (lcd bus_ack 16 2) []))
  = [(0x72, Bytearray [0x7C; 0x2D]); (0x72, Text (lit "Hello world"));
     (0x72, Text (lit " HEY!"))].
Proof.
  apply (display_then_append bus_ack (lit "Hello world") (lit " HEY!") (lcd bus_ack 16 2) []).
  - intros tr a p. exists (VInt 1). reflexivity.
  - vm_compute. discriminate.
Defined.

(** ** The last toggle of a flag decides *)

(** Starting from a fresh handle and after any sequence of toggles, a toggle
    followed by another toggle of the same flag leaves the bitfield the
    second alone would leave: an earlier setting of a flag is forgotten. *)
Theorem last_toggle_of_a_flag_wins env i2c_address columns rows tr0 ts t t' :
  flag_of t = flag_of t' ->
  let s0 := fst (init env i2c_address columns rows tr0) in
  let tr1 := snd (init env i2c_address columns rows tr0) in
  _displayControl (fst (run_toggles env (ts ++ [t; t']) s0 tr1))
  = _displayControl (fst (run_toggles env (ts ++ [t']) s0 tr1)).
Proof.
  intros H s0 tr1.
  rewrite (proj1 (run_toggles_from env (ts ++ [t; t']) s0 tr1 initial_flags eq_refl)).
  rewrite (proj1 (run_toggles_from env (ts ++ [t']) s0 tr1 initial_flags eq_refl)).
  rewrite !fold_left_app. cbn [fold_left]. f_equal.
  destruct t, t'; try discriminate H; reflexivity.
Qed.

Lemma last_toggle_of_a_flag_wins_witness :
  _displayControl
    (fst (run_toggles bus_nack ([DisableDisplay] ++ [EnableCursor; DisableCursor])
            (lcd bus_nack 16 2) [Ticks]))
  = _displayControl
      (fst (run_toggles bus_nack ([DisableDisplay] ++ [DisableCursor])
              (lcd bus_nack 16 2) [Ticks])).
Proof.
  apply (last_toggle_of_a_flag_wins bus_nack 0x72 16 2 [] [DisableDisplay]
           EnableCursor DisableCursor).
  reflexivity.
Defined.

(** ** The fade loop of the demo script *)

(** Started at [i >= 20] on a bus that returns, the loop ends after i-20
    iterations with [i = 20] and [j] raised by the number of iterations run
    below 41; it has sent one backlight command per iteration, with blue
    going down from [i] to 21 and red and green going up from [j] once blue
    is below 41.  (From the script's 254 and 0 the last colour sent is
    (19, 19, 21).) *)
Theorem fade_loop_terminates env fuel :
  forall i j s tr,
    returns_always env ->
    20 <= i ->
    (Z.to_nat (i - 20) <= fuel)%nat ->
    let r := fade_loop env fuel i j s tr in
    let colour k :=
      let blue := i - Z.of_nat k in
      let grey := j + Z.max 0 (Z.min i 40 - blue) in
      (address s, Bytearray [0x7C; 0x2B; grey; grey; blue]) in
    outcome_of r = Returns (Some (20, j + (Z.min i 40 - 20)))
    /\ writes (trace_of r) = writes tr ++ map colour (seq 0 (Z.to_nat (i - 20)))
    /\ handle_of r = s.
Proof.
  induction fuel as [| fuel IH]; intros i j s tr Hret Hi Hf r colour; subst r colour.
  - assert (i = 20) by lia. subst i. cbn [fade_loop Z.eqb Z.compare Pos.compare
                                           Pos.compare_cont].
    unfold ret. observe. replace (Z.min 20 40 - 20) with 0 by lia.
    rewrite Z.add_0_r. cbn. rewrite app_nil_r. auto.
  - cbn [fade_loop]. destruct (Z.eqb_spec i 20) as [-> | Hne].
    + unfold ret. observe. replace (Z.min 20 40 - 20) with 0 by lia.
      rewrite Z.add_0_r. cbn. rewrite app_nil_r. auto.
    + unfold bind, set_rgb_backlight. unfold_constants. rewrite send_commands_run.
      destruct (Hret tr (address s) (Bytearray [124; 43; j; j; i])) as [v ->].
      destruct (IH (i - 1) (if i <? 41 then j + 1 else j) s
                  (tr ++ [Write (address s) (Bytearray [124; 43; j; j; i]); Sleep 10]) Hret)
        as (O & W & H); [lia | lia |].
      cbv zeta in O, W. rewrite O, W, H.
      split; [| split; [| reflexivity]].
      * do 3 f_equal. destruct (Z.ltb_spec i 41); lia.
      * collect_writes. f_equal.
        replace (Z.to_nat (i - 20)) with (S (Z.to_nat (i - 1 - 20))) by lia.
        cbn [seq map]. f_equal.
        { replace (i - Z.of_nat 0) with i by lia.
          replace (j + Z.max 0 (Z.min i 40 - i)) with j by lia. reflexivity. }
        rewrite <- seq_shift, map_map. apply map_ext. intros k.
        replace (i - 1 - Z.of_nat k) with (i - Z.of_nat (S k)) by lia.
        replace ((if i <? 41 then j + 1 else j)
                 + Z.max 0 (Z.min (i - 1) 40 - (i - Z.of_nat (S k))))
          with (j + Z.max 0 (Z.min i 40 - (i - Z.of_nat (S k))));
          [reflexivity |].
        destruct (Z.ltb_spec i 41); lia.
Qed.

Lemma fade_loop_terminates_witness :
  outcome_of (fade_loop bus_ack 234 254 0 (lcd bus_ack 16 2) []) = Returns (Some (20, 20))
  /\ length (writes (trace_of (fade_loop bus_ack 234 254 0 (lcd bus_ack 16 2) []))) = 234%nat
  /\ last (writes (trace_of (fade_loop bus_ack 234 254 0 (lcd bus_ack 16 2) [])))
       (0, Text [])
     = (0x72, Bytearray [0x7C; 0x2B; 19; 19; 21]).
Proof.
  destruct (fade_loop_terminates bus_ack 234 254 0 (lcd bus_ack 16 2) []) as (O & W & _).
  - intros tr a p. exists (VInt 1). reflexivity.
  - lia.
  - lia.
  - rewrite O, W. repeat split; vm_compute; reflexivity.
Defined.

(** ** Scrolling a message that changed between calls *)

(** Whatever non-negative index the handle holds (a shorter message may
    have been passed since the last call), a due [display_scrolling] on a
    bus that returns sends at most columns*rows characters and leaves the
    index within [0, len(message)]. *)
Theorem display_scrolling_any_index env message duration s tr :
  returns_always env ->
  ticks_diff env (ticks_ms env tr) (last_refreshed s) > duration ->
  0 <= window_len s ->
  0 <= index s ->
  let r := display_scrolling env message duration s tr in
  exists shown,
    writes (trace_of r)
    = writes tr ++ [(address s, clear_command); (address s, Text shown)]
    /\ len shown <= window_len s
    /\ 0 <= index (handle_of r) <= len message.
Proof.
  intros Hret Hdue Hw Hi r. subst r.
  rewrite (display_scrolling_due_run env message duration s tr Hret Hdue).
  exists (py_slice (visible_message s message) 0 (window_len s)).
  observe. split; [| split].
  - collect_writes. reflexivity.
  - rewrite py_slice_prefix by assumption. unfold len.
    pose proof (firstn_le_length (Z.to_nat (window_len s)) (visible_message s message)).
    pose proof (length_firstn (Z.to_nat (window_len s)) (visible_message s message)).
    lia.
  - cbn [with_index index]. unfold next_index, len.
    destruct (Z.gtb_spec (index s + 1) (Z.of_nat (length message))); lia.
Qed.

Lemma display_scrolling_any_index_witness :
  exists shown,
    writes (trace_of (display_scrolling bus_ack (lit "ABCD") 500
                        (with_index 6 (lcd bus_ack 3 1)) [Ticks]))
    = [(0x72, Bytearray [0x7C; 0x2D]); (0x72, Text shown)]
    /\ len shown <= 3
    /\ 0 <= index (handle_of (display_scrolling bus_ack (lit "ABCD") 500
                                (with_index 6 (lcd bus_ack 3 1)) [Ticks])) <= 4.
Proof.
  apply (display_scrolling_any_index bus_ack (lit "ABCD") 500
           (with_index 6 (lcd bus_ack 3 1)) [Ticks]).
  - intros tr a p. exists (VInt 1). reflexivity.
  - reflexivity.
  - vm_compute. discriminate.
  - vm_compute. discriminate.
Defined.
